(** * Module installation engine of [packages/kit/src/module/install.ts]

    A shallow embedding of [installModule], [getDirectory],
    [normalizeModuleTranspilePath] and [loadNuxtModuleInstance], together with
    the properties of the installation engine that the specification states
    about them. *)

From Equations Require Import Equations.
From Equations.Prop Require Import Logic.
From stdpp Require Import base option strings list gmap pretty.
From Stdlib Require Import Ascii ZArith Lia.

#[local] Set Warnings "-register-all".

Local Open Scope string_scope.
Local Open Scope list_scope.

(** ** String primitives used by the source *)

Module Str.

(** [strip_prefix pre s] is [Some rest] when [s = pre ++ rest]. *)
Fixpoint strip_prefix (pre s : string) : option string :=
  match pre with
  | EmptyString => Some s
  | String a pre' =>
      match s with
      | EmptyString => None
      | String b s' =>
          if Ascii.eqb a b then strip_prefix pre' s' else None
      end
  end.

(** [cut sep s] locates the first occurrence of [sep] in [s], scanning from
    the left as [String.prototype.indexOf] does, and returns the text before
    it and the text after it. *)
Fixpoint cut (sep s : string) : option (string * string) :=
  match strip_prefix sep s with
  | Some rest => Some (EmptyString, rest)
  | None =>
      match s with
      | EmptyString => None
      | String c s' =>
          match cut sep s' with
          | Some (a, b) => Some (String c a, b)
          | None => None
          end
      end
  end.

(** [includes sep s]: [s] has an occurrence of [sep]. *)
Definition includes (sep s : string) : bool :=
  match cut sep s with Some _ => true | None => false end.

(** The code units of a string, one string each: what [s.split('')]
    returns. *)
Fixpoint chars (s : string) : list string :=
  match s with
  | EmptyString => []
  | String c s' => String c EmptyString :: chars s'
  end.

(** [occurs sep s]: [sep] is a substring of [s]. *)
Definition occurs (sep s : string) : Prop :=
  exists a b, s = a +:+ sep +:+ b.

(** All the ways of writing [s] as [u ++ v]. *)
Fixpoint splits (s : string) : list (string * string) :=
  match s with
  | EmptyString => [(EmptyString, EmptyString)]
  | String c s' =>
      (EmptyString, s) :: map (fun uv => (String c uv.1, uv.2)) (splits s')
  end.

(** [unbordered sep]: the only prefixes of [sep] that are also suffixes of
    [sep] are the empty string and [sep] itself, so that two occurrences of
    [sep] never overlap. *)
Definition unbordered (sep : string) : bool :=
  forallb (fun uv =>
             String.eqb uv.1 "" || String.eqb uv.2 ""
             || negb (bool_decide (is_Some (strip_prefix uv.2 sep))))
          (splits sep).

(** [split sep s] is [s.split(sep)] for a string separator: the pieces
    between successive occurrences of [sep], found left to right. *)
Equations? split (sep s : string) : list string
  by wf (String.length s) lt :=
  split EmptyString s := chars s;
  split (String c sep') s with inspect (cut (String c sep') s) := {
    | exist _ None _ => [s]
    | exist _ (Some (a, b)) Hcut => a :: split (String c sep') b }.
Proof.
  (* cutting at a non-empty separator leaves a shorter remainder *)
  assert (forall pre t rest,
             strip_prefix pre t = Some rest ->
             String.length t = String.length pre + String.length rest)
    as Hstrip.
  { induction pre as [|x pre IH]; intros t rest; simpl.
    - by intros [= ->].
    - destruct t as [|y t]; [discriminate|].
      destruct (Ascii.eqb x y); [|discriminate].
      intros H%IH. simpl. lia. }
  assert (forall pre t x y,
             cut pre t = Some (x, y) ->
             String.length t
             = String.length x + String.length pre + String.length y)
    as Hlength.
  { intros pre. induction t as [|z t IH]; intros x y; simpl.
    - destruct (strip_prefix pre "") eqn:E; [|discriminate].
      intros [= <- <-]. by apply Hstrip in E.
    - destruct (strip_prefix pre (String z t)) eqn:E.
      + intros [= <- <-]. by apply Hstrip in E.
      + destruct (cut pre t) as [[x' y']|] eqn:E'; [|discriminate].
        intros [= <- <-]. simpl. f_equal. by apply IH. }
  apply Hlength in Hcut. simpl in Hcut. lia.
Qed.

(** [Array.prototype.pop]: the last element, if any. *)
Definition pop (l : list string) : option string := last l.

End Str.


(** ** JavaScript values *)

Module Js.

(** The values the engine inspects: JSON-like data.  Functions are kept
    apart (see [JsAny] below) because a module callable acts on the build
    context. *)
Inductive JsVal : Type :=
  | VUndefined
  | VNull
  | VBool (b : bool)
  | VNum (n : Z) (* integers stand for numbers *)
  | VStr (s : string)
  | VObj (props : gmap string JsVal).

(** Thrown values.  [Thrown] is an error raised by a collaborator (loader,
    filesystem, parser, module callable), identified by its text;
    [TypeError] is [new TypeError(message)]. *)
Inductive JsError : Type :=
  | Thrown (what : string)
  | TypeError (message : string).

Inductive Result (A : Type) : Type :=
  | Ok (a : A)
  | Throw (e : JsError).
Arguments Ok {A} a.
Arguments Throw {A} e.

(** String conversion, as in [`${v}`] and ['...' + v].  A number is printed
    with all its digits, as JavaScript does below [1e21] (see
    [prints_in_full]). *)
Definition toString (v : JsVal) : string :=
  match v with
  | VUndefined => "undefined"
  | VNull => "null"
  | VBool true => "true"
  | VBool false => "false"
  | VNum n => pretty n
  | VStr s => s
  | VObj _ => "[object Object]"
  end.

Definition error_toString (e : JsError) : string :=
  match e with
  | Thrown what => what
  | TypeError message => "TypeError: " +:+ message
  end.

(** [!!v] *)
Definition truthy (v : JsVal) : bool :=
  match v with
  | VUndefined | VNull => false
  | VBool b => b
  | VNum n => negb (n =? 0)%Z
  | VStr s => negb (String.eqb s "")
  | VObj _ => true
  end.

(** [v == null], the test behind [??] and [?.] *)
Definition nullish (v : JsVal) : bool :=
  match v with
  | VUndefined | VNull => true
  | _ => false
  end.

(** [v === false] *)
Definition is_false (v : JsVal) : bool :=
  match v with
  | VBool false => true
  | _ => false
  end.

(** Property read [v.key] on a non-nullish value; a missing property and a
    property of a primitive are both [undefined]. *)
Definition get_prop (v : JsVal) (key : string) : JsVal :=
  match v with
  | VObj props => default VUndefined (props !! key)
  | _ => VUndefined
  end.

(** [a || b] for an optional string [a]: [undefined] and [''] are falsy. *)
Definition or_string (a : option string) (b : string) : string :=
  match a with
  | Some s => if String.eqb s "" then b else s
  | None => b
  end.

End Js.
Export Js.

(** ** The build context and the module callable *)

(** Metadata records ([ModuleMeta]): a mapping from keys to values. *)
Abbreviation Meta := (gmap string JsVal).

(** A configuration layer, with the three fields [installModule] reads:
    [l.cwd], [l.config.srcDir] and [l.config.dir.modules]. *)
Record Layer : Type := {
  cwd : string;
  config_srcDir : option string;
  config_dir_modules : option string
}.

(** An entry of [nuxt.options._installedModules]. *)
Record InstalledModule : Type := {
  meta : Meta;
  timings : JsVal;
  entryPath : option string
}.

(** The part of the [Nuxt] instance the engine reads and writes:
    [nuxt.options._layers], [nuxt.options.build.transpile],
    [nuxt.options.modulesDir], [nuxt.options._installedModules] (which may be
    undefined) and [nuxt.moduleContainer]. *)
Record Nuxt : Type := {
  _layers : list Layer;
  build_transpile : list string;
  modulesDir : list string;
  _installedModules : option (list InstalledModule);
  moduleContainer : JsVal
}.

(** A module callable.  [run this inlineOptions nuxt] is the function body
    applied with receiver [this] ([None] for a plain call); it may mutate the
    build context it is handed and either returns a value or throws.
    [getMeta] is the optional capability; [source] is the text
    [Function.prototype.toString] gives. *)
Record NuxtModule : Type := {
  run : option JsVal -> JsVal -> Nuxt -> Nuxt * Result JsVal;
  getMeta : option (Result Meta);
  source : string
}.

(** Any value a module reference can hold at run time. *)
Inductive JsAny : Type :=
  | AFun (f : NuxtModule)
  | AVal (v : JsVal).

Definition any_truthy (x : JsAny) : bool :=
  match x with AFun _ => true | AVal v => truthy v end.

Definition any_nullish (x : JsAny) : bool :=
  match x with AFun _ => false | AVal v => nullish v end.

Definition any_toString (x : JsAny) : string :=
  match x with AFun f => source f | AVal v => toString v end.

(** ** Collaborators *)

(** What [lstatSync(p)] reports about an existing path. *)
Inductive FileKind : Type := RegularFile | Directory | SymbolicLink | OtherKind.

Definition isFile (k : FileKind) : bool :=
  match k with RegularFile => true | _ => false end.

(** The imported functions the file calls, as a record of the host
    environment: [pathe] ([join], [dirname], [isAbsolute], [resolve]), the
    kit's resolver ([resolvePath], [resolveAlias]), the two loaders, [node:fs],
    [JSON.parse] and [isNuxt2].  An asynchronous collaborator is represented by
    the settled value of its promise. *)
Record Host : Type := {
  join : string -> string -> string;
  dirname : string -> string;
  isAbsolute : string -> bool;
  resolve : string -> string -> string;
  resolvePath : string -> Result string;
  resolveAlias : string -> string;
  importModule : string -> list string -> Result JsAny;
  requireModule : string -> list string -> Result JsAny;
  existsSync : string -> bool;
  readFile : string -> Result string;
  JSON_parse : string -> Result Meta;
  lstatSync : string -> Result FileKind;
  isNuxt2 : bool
}.

(** Calls to collaborators, in the order they are made. *)
Inductive Event : Type :=
  | EvResolvePath (path : string)
  | EvImportModule (src : string) (dirs : list string)
  | EvRequireModule (src : string) (dirs : list string)
  | EvExistsSync (path : string)
  | EvReadFile (path : string)
  | EvJsonParse (text : string)
  | EvLstatSync (path : string)
  | EvLoggerError (message : string).

(** ** Effects: build context, call trace, exceptions *)

(** A computation runs against the (mutable) build context, records the
    collaborator calls it makes, and either returns or throws. *)
Definition M (A : Type) : Type := Nuxt -> list Event * Nuxt * Result A.

Definition ret {A} (a : A) : M A := fun nuxt => ([], nuxt, Ok a).

Definition bind {A B} (m : M A) (k : A -> M B) : M B :=
  fun nuxt =>
    match m nuxt with
    | (tr, nuxt', Ok a) =>
        match k a nuxt' with
        | (tr', nuxt'', r) => (tr ++ tr', nuxt'', r)
        end
    | (tr, nuxt', Throw e) => (tr, nuxt', Throw e)
    end.

Definition throw {A} (e : JsError) : M A := fun nuxt => ([], nuxt, Throw e).

Definition get : M Nuxt := fun nuxt => ([], nuxt, Ok nuxt).

Definition modify (f : Nuxt -> Nuxt) : M unit := fun nuxt => ([], f nuxt, Ok tt).

(** A collaborator call: logged, then its outcome. *)
Definition call {A} (ev : Event) (r : Result A) : M A :=
  fun nuxt => ([ev], nuxt, r).

(** A call that is not traced (a method of a value at hand). *)
Definition settle {A} (r : Result A) : M A :=
  fun nuxt => ([], nuxt, r).

(** [attempt m] runs [m] inside a [try] (or behind a promise [.catch]) and
    hands the outcome to the handler as a value. *)
Definition attempt {A} (m : M A) : M (Result A) :=
  fun nuxt =>
    match m nuxt with
    | (tr, nuxt', r) => (tr, nuxt', Ok r)
    end.

Declare Scope js_scope.
Delimit Scope js_scope with js.
Notation "x <- m ;; k" := (bind m (fun x => k))
  (at level 100, m at next level, right associativity) : js_scope.
Notation "m ;; k" := (bind m (fun _ => k))
  (at level 100, right associativity) : js_scope.
Local Open Scope js_scope.

(** Writes to the build context. *)
Definition push_transpile (p : string) (nuxt : Nuxt) : Nuxt :=
  {| _layers := _layers nuxt;
     build_transpile := build_transpile nuxt ++ [p];
     modulesDir := modulesDir nuxt;
     _installedModules := _installedModules nuxt;
     moduleContainer := moduleContainer nuxt |}.

Definition push_modulesDir (d : string) (nuxt : Nuxt) : Nuxt :=
  {| _layers := _layers nuxt;
     build_transpile := build_transpile nuxt;
     modulesDir := modulesDir nuxt ++ [d];
     _installedModules := _installedModules nuxt;
     moduleContainer := moduleContainer nuxt |}.

(** [nuxt.options._installedModules ||= []] *)
Definition ensure_installedModules (nuxt : Nuxt) : Nuxt :=
  {| _layers := _layers nuxt;
     build_transpile := build_transpile nuxt;
     modulesDir := modulesDir nuxt;
     _installedModules := Some (default [] (_installedModules nuxt));
     moduleContainer := moduleContainer nuxt |}.

(** [nuxt.options._installedModules.push(entry)], after the [||=] above. *)
Definition push_installedModule (entry : InstalledModule) (nuxt : Nuxt) : Nuxt :=
  {| _layers := _layers nuxt;
     build_transpile := build_transpile nuxt;
     modulesDir := modulesDir nuxt;
     _installedModules := Some (default [] (_installedModules nuxt) ++ [entry]);
     moduleContainer := moduleContainer nuxt |}.

(** The ledger as a list: an undefined [_installedModules] holds nothing. *)
Definition ledger (nuxt : Nuxt) : list InstalledModule :=
  default [] (_installedModules nuxt).

(** [const NODE_MODULES_RE = /[/\\]node_modules[/\\]/] and its [test]: some
    position holds a slash or backslash, then [node_modules], then a slash or
    backslash. *)
Definition is_slash (c : Ascii.ascii) : bool :=
  Ascii.eqb c "/"%char || Ascii.eqb c "\"%char.

Fixpoint NODE_MODULES_RE_test (s : string) : bool :=
  match s with
  | EmptyString => false
  | String c s' =>
      (is_slash c &&
       match Str.strip_prefix "node_modules" s' with
       | Some (String d _) => is_slash d
       | _ => false
       end)
      || NODE_MODULES_RE_test s'
  end.

(** Modelled from the spec: [defu] is the external package the file imports;
    its code is not part of the sources.  The specification describes the
    merge as key-wise: the first argument (the callable's own metadata, absent
    when there is no [getMeta]) wins on a key both sides define, the second
    (build-time metadata) fills the keys the first lacks. *)
Definition defu (own : option Meta) (defaults : Meta) : Meta :=
  default ∅ own ∪ defaults.

(** ** The functions of [install.ts] *)

Section Install.

Variable host : Host.

(** [getDirectory]: the conditional runs inside [try]; the empty [catch]
    falls through to [return p]. *)
Definition getDirectory (p : string) : M string :=
  r <- attempt
         (if isAbsolute host p then
            stats <- call (EvLstatSync p) (lstatSync host p) ;;
            ret (if isFile stats then dirname host p else p)
          else ret p) ;;
  match r with
  | Ok d => ret d
  | Throw _ => ret p
  end.

(** [normalizeModuleTranspilePath]:
    [getDirectory(p).split('node_modules/').pop() as string].  [split] never
    returns an empty array (lemma [split_nonempty] below), so the cast is
    sound and the default is never used. *)
Definition normalizeModuleTranspilePath (p : string) : M string :=
  d <- getDirectory p ;;
  ret (default "" (Str.pop (Str.split "node_modules/" d))).

(** The local variables of [loadNuxtModuleInstance] that the candidate loop
    assigns. *)
Record LoopVars : Type := {
  nuxtModule : JsAny;
  buildTimeModuleMeta : Meta;
  error : option JsError
}.

Inductive LoopExit : Type := Break | Continue.

(** [await importModule(src, nuxt.options.modulesDir).catch(() => null)
      ?? requireModule(src, { paths: nuxt.options.modulesDir })] *)
Definition loadModule (src : string) : M JsAny :=
  nuxt <- get ;;
  imported <- attempt (call (EvImportModule src (modulesDir nuxt))
                            (importModule host src (modulesDir nuxt))) ;;
  let modern := match imported with Ok v => v | Throw _ => AVal VNull end in
  if any_nullish modern
  then call (EvRequireModule src (modulesDir nuxt))
            (requireModule host src (modulesDir nuxt))
  else ret modern.

(** The body of the [try] for one resolved candidate.  An exception leaves
    the assignments made before it in place; the [catch] stores it in
    [error] and continues with the next candidate. *)
Definition tryCandidate (src : string) (vars : LoopVars) : M (LoopVars * LoopExit) :=
  loaded <- attempt (loadModule src) ;;
  match loaded with
  | Throw _err =>
      ret ({| nuxtModule := nuxtModule vars;
              buildTimeModuleMeta := buildTimeModuleMeta vars;
              error := Some _err |}, Continue)
  | Ok m =>
      let moduleMetadataPath := join host (dirname host src) "module.json" in
      present <- call (EvExistsSync moduleMetadataPath)
                      (Ok (existsSync host moduleMetadataPath)) ;;
      if present : bool then
        parsed <- attempt
                    (text <- call (EvReadFile moduleMetadataPath)
                                  (readFile host moduleMetadataPath) ;;
                     call (EvJsonParse text) (JSON_parse host text)) ;;
        match parsed with
        | Throw _err =>
            ret ({| nuxtModule := m;
                    buildTimeModuleMeta := buildTimeModuleMeta vars;
                    error := Some _err |}, Continue)
        | Ok json =>
            ret ({| nuxtModule := m;
                    buildTimeModuleMeta := json;
                    error := error vars |}, Break)
        end
      else
        ret ({| nuxtModule := m;
                buildTimeModuleMeta := buildTimeModuleMeta vars;
                error := error vars |}, Break)
  end.

(** [for (const path of paths) { const src = await resolvePath(path); try
    { ... break } catch { ... continue } }]: [resolvePath] is called before
    the [try] opens. *)
Fixpoint candidateLoop (paths : list string) (vars : LoopVars) : M LoopVars :=
  match paths with
  | [] => ret vars
  | path :: rest =>
      src <- call (EvResolvePath path) (resolvePath host path) ;;
      outcome <- tryCandidate src vars ;;
      match outcome with
      | (vars', Break) => ret vars'
      | (vars', Continue) => candidateLoop rest vars'
      end
  end.

(** The [paths] array built for a string specifier. *)
Definition candidatePaths (specifier : string) : list string :=
  [join host specifier "nuxt"; join host specifier "module"; specifier].

Definition loadNuxtModuleInstance (reference : JsAny) : M (NuxtModule * Meta) :=
  let init := {| nuxtModule := reference;
                 buildTimeModuleMeta := ∅;
                 error := None |} in
  vars <- match reference with
          | AVal (VStr specifier) =>
              vars <- candidateLoop (candidatePaths specifier) init ;;
              match error vars with
              | Some err =>
                  if negb (any_truthy (nuxtModule vars)) then
                    call (EvLoggerError
                            ("Error while requiring module `"
                             +:+ any_toString (nuxtModule vars)
                             +:+ "`: " +:+ error_toString err))
                         (Ok tt) ;;
                    throw err
                  else ret vars
              | None => ret vars
              end
          | _ => ret init
          end ;;
  match nuxtModule vars with
  | AFun f => ret (f, buildTimeModuleMeta vars)
  | AVal v =>
      throw (TypeError ("Nuxt module should be a function: " +:+ toString v))
  end.

(** The set [localLayerModuleDirs] computed from [nuxt.options._layers]. *)
Definition localLayerModuleDirs (layers : list Layer) : gset string :=
  foldl (fun dirs l =>
           let srcDir := or_string (config_srcDir l) (cwd l) in
           if NODE_MODULES_RE_test srcDir then dirs
           else dirs ∪ {[ resolve host srcDir
                            (or_string (config_dir_modules l) "modules") ]})
        ∅ layers.

(** Applying the callable: it receives the build context and may change
    it. *)
Definition invoke (f : NuxtModule) (this : option JsVal) (inlineOptions : JsVal)
  : M JsVal :=
  fun nuxt =>
    match run f this inlineOptions nuxt with
    | (nuxt', r) => ([], nuxt', r)
    end.

Definition specifier_of (reference : JsAny) : option string :=
  match reference with
  | AVal (VStr s) => Some s
  | _ => None
  end.

Definition installModule (moduleToInstall : JsAny) (inlineOptions : JsVal) : M unit :=
  loaded <- loadNuxtModuleInstance moduleToInstall ;;
  let '(nuxtModule, buildTimeModuleMeta) := loaded in
  nuxt <- get ;;
  let localDirs := localLayerModuleDirs (_layers nuxt) in
  returned <- invoke nuxtModule
                (if isNuxt2 host then Some (moduleContainer nuxt) else None)
                inlineOptions ;;
  let result := if nullish returned then VObj ∅ else returned in
  if is_false result then ret tt
  else
    match specifier_of moduleToInstall with
    | Some specifier =>
        transpilePath <- normalizeModuleTranspilePath specifier ;;
        modify (push_transpile transpilePath) ;;
        directory <- getDirectory specifier ;;
        if negb (String.eqb directory specifier)
           && negb (bool_decide (directory ∈ localDirs))
        then modify (push_modulesDir directory)
        else ret tt
    | None => ret tt
    end ;;
    modify ensure_installedModules ;;
    own <- match getMeta nuxtModule with
           | Some produced => m <- settle produced ;; ret (Some m)
           | None => ret None
           end ;;
    modify (push_installedModule
              {| meta := defu own buildTimeModuleMeta;
                 timings := get_prop result "timings";
                 entryPath := option_map (resolveAlias host)
                                (specifier_of moduleToInstall) |}).

End Install.

(** ** Reading the outcome of a run *)

Definition trace_of {A} (out : list Event * Nuxt * Result A) : list Event := out.1.1.
Definition context_of {A} (out : list Event * Nuxt * Result A) : Nuxt := out.1.2.
Definition outcome_of {A} (out : list Event * Nuxt * Result A) : Result A := out.2.

(** [after tr out]: the run [out], preceded by the calls [tr]. *)
Definition after {A} (tr : list Event) (out : list Event * Nuxt * Result A)
  : list Event * Nuxt * Result A :=
  (tr ++ out.1.1, out.1.2, out.2).

(** The paths handed to [resolvePath] during a run, in order. *)
Definition resolved_paths (tr : list Event) : list string :=
  omap (fun ev => match ev with EvResolvePath p => Some p | _ => None end) tr.


(** The modern load of [src] did not produce a value: the promise rejected, or
    it resolved to [null] or [undefined]. *)
Definition modern_load_failed (host : Host) (src : string) (dirs : list string) : Prop :=
  match importModule host src dirs with
  | Ok v => any_nullish v = true
  | Throw _ => True
  end.

(** The receiver [installModule] calls the module with. *)
Definition receiver (host : Host) (nuxt : Nuxt) : option JsVal :=
  if isNuxt2 host then Some (moduleContainer nuxt) else None.

(** [await nuxtModule.getMeta?.()]: [None] when the capability is absent. *)
Definition declared_meta (f : NuxtModule) : Result (option Meta) :=
  match getMeta f with
  | Some (Ok m) => Ok (Some m)
  | Some (Throw e) => Throw e
  | None => Ok None
  end.

(** [returned ?? {}] *)
Definition install_result (returned : JsVal) : JsVal :=
  if nullish returned then VObj ∅ else returned.

(** The outcome of the sidecar step of a candidate resolved to [src]:
    [Ok None] without a [module.json], [Ok (Some json)] when it reads and
    parses, the error thrown otherwise. *)
Definition sidecar_outcome (host : Host) (src : string) : Result (option Meta) :=
  let moduleMetadataPath := join host (dirname host src) "module.json" in
  if existsSync host moduleMetadataPath then
    match readFile host moduleMetadataPath with
    | Ok text =>
        match JSON_parse host text with
        | Ok json => Ok (Some json)
        | Throw e => Throw e
        end
    | Throw e => Throw e
    end
  else Ok None.

(** A candidate that resolves but whose [try] block throws: the load fails,
    or it succeeds and the sidecar step throws. *)
Definition candidate_fails (host : Host) (nuxt : Nuxt) (path : string) : Prop :=
  exists src,
    resolvePath host path = Ok src
    /\ ((exists e, outcome_of (loadModule host src nuxt) = Throw e)
        \/ (exists m e,
               outcome_of (loadModule host src nuxt) = Ok m
               /\ sidecar_outcome host src = Throw e)).


(** The loop variables on entry to the candidate loop. *)
Definition initial_vars (specifier : string) : LoopVars :=
  {| nuxtModule := AVal (VStr specifier);
     buildTimeModuleMeta := ∅;
     error := None |}.

(** ** Sample environments

    Concrete collaborators for the worked examples.  The path functions stand
    in for [pathe] on paths that are already normalized, written with forward
    slashes. *)

Module Sample.

Definition posix_join (a b : string) : string :=
  if String.eqb a "" then b else a +:+ "/" +:+ b.

(** The text before the last slash, when there is a slash. *)
Fixpoint before_last_slash (s : string) : option string :=
  match s with
  | EmptyString => None
  | String c s' =>
      match before_last_slash s' with
      | Some d => Some (String c d)
      | None => if Ascii.eqb c "/"%char then Some EmptyString else None
      end
  end.

Definition posix_dirname (s : string) : string :=
  match before_last_slash s with
  | Some EmptyString => "/"
  | Some d => d
  | None => "."
  end.

Definition posix_isAbsolute (s : string) : bool :=
  match s with
  | String c _ => Ascii.eqb c "/"%char
  | EmptyString => false
  end.

Definition posix_resolve (base p : string) : string :=
  if posix_isAbsolute p then p else posix_join base p.

(** A table lookup by exact path, used to describe a small filesystem. *)
Fixpoint lookup_path {A} (table : list (string * A)) (p : string) : option A :=
  match table with
  | [] => None
  | (q, a) :: table' => if String.eqb p q then Some a else lookup_path table' p
  end.

Definition not_found {A} (p : string) : Result A :=
  Throw (Thrown ("Cannot find module '" +:+ p +:+ "'")).

(** A host described by tables: what each path resolves to, what each
    loader yields, which files exist with which text, how text parses. *)
Definition table_host
    (resolved : list (string * Result string))
    (esm cjs : list (string * Result JsAny))
    (files : list (string * string))
    (parses : list (string * Result Meta))
    (kinds : list (string * FileKind))
    (legacy : bool) : Host :=
  {| join := posix_join;
     dirname := posix_dirname;
     isAbsolute := posix_isAbsolute;
     resolve := posix_resolve;
     resolvePath := fun p => default (Ok p) (lookup_path resolved p);
     resolveAlias := fun p => p;
     importModule := fun src _ => default (not_found src) (lookup_path esm src);
     requireModule := fun src _ => default (not_found src) (lookup_path cjs src);
     existsSync := fun p => bool_decide (is_Some (lookup_path files p));
     readFile := fun p =>
       match lookup_path files p with
       | Some text => Ok text
       | None => Throw (Thrown ("ENOENT: " +:+ p))
       end;
     JSON_parse := fun text =>
       default (Throw (Thrown "SyntaxError: Unexpected token")) (lookup_path parses text);
     lstatSync := fun p =>
       match lookup_path kinds p with
       | Some k => Ok k
       | None => Throw (Thrown ("ENOENT: " +:+ p))
       end;
     isNuxt2 := legacy |}.

Definition empty_nuxt : Nuxt :=
  {| _layers := [];
     build_transpile := [];
     modulesDir := [];
     _installedModules := None;
     moduleContainer := VObj ∅ |}.

(** A callable that leaves the build context alone and returns [value]. *)
Definition constant_module (value : JsVal) (declared : option (Result Meta)) : NuxtModule :=
  {| run := fun _ _ nuxt => (nuxt, Ok value);
     getMeta := declared;
     source := "function setup () { }" |}.

Definition setup_ok : NuxtModule :=
  constant_module (VObj {[ "timings" := VObj {[ "setup" := VNum 5 ]} ]}) None.

Definition setup_abort : NuxtModule := constant_module (VBool false) None.

Definition setup_declaring : NuxtModule :=
  constant_module VUndefined (Some (Ok {[ "b" := VNum 3 ]})).

(** Nothing can be loaded. *)
Definition host_missing : Host := table_host [] [] [] [] [] [] false.

(** [my-mod/module] is a CommonJS file next to a [module.json] that declares
    a version. *)
Definition host_sidecar (f : NuxtModule) : Host :=
  table_host [] [] [("my-mod/module", Ok (AFun f))]
    [("my-mod/module.json", "{ version }")]
    [("{ version }", Ok {[ "version" := VStr "1.0" ]})] [] false.

(** [m/nuxt] loads, but the [module.json] next to it is not JSON. *)
Definition host_bad_sidecar : Host :=
  table_host [] [("m/nuxt", Ok (AFun setup_ok))] []
    [("m/module.json", "{ not json")] [] [] false.

(** The resolver rejects [m/nuxt]; [m/module] would load. *)
Definition host_resolver_fails : Host :=
  table_host [("m/nuxt", Throw (Thrown "resolve failed"))]
    [("m/module", Ok (AFun setup_ok))] [] [] [] [] false.

(** The dynamic import of [m/nuxt] resolves to [undefined]; [require] of
    the same path yields the module. *)
Definition host_nullish_import : Host :=
  table_host [] [("m/nuxt", Ok (AVal VUndefined))]
    [("m/nuxt", Ok (AFun setup_ok))] [] [] [] false.

(** [/proj/node_modules/foo/index.js] is a regular file in the directory
    [/proj/node_modules/foo], and [/proj/modules/local.js] one in
    [/proj/modules]; both are ES modules. *)
Definition host_package : Host :=
  table_host []
    [("/proj/node_modules/foo/index.js", Ok (AFun setup_ok));
     ("/proj/modules/local.js", Ok (AFun setup_ok))] [] [] []
    [("/proj/node_modules/foo/index.js", RegularFile);
     ("/proj/node_modules/foo", Directory);
     ("/proj/modules/local.js", RegularFile);
     ("/proj/modules", Directory)] false.

(** A build context with one layer rooted at [/proj]. *)
Definition project_nuxt : Nuxt :=
  {| _layers := [{| cwd := "/proj";
                    config_srcDir := None;
                    config_dir_modules := None |}];
     build_transpile := [];
     modulesDir := ["/proj/node_modules"];
     _installedModules := Some [];
     moduleContainer := VObj ∅ |}.

End Sample.

(** Further callables and environments for the edge cases. *)
Module Cases.

Import Sample.

(** A callable that throws. *)
Definition setup_throwing : NuxtModule :=
  {| run := fun _ _ nuxt => (nuxt, Throw (Thrown "setup failed"));
     getMeta := None;
     source := "function setup () { throw new Error('setup failed') }" |}.

(** A callable whose [getMeta] throws. *)
Definition setup_bad_meta : NuxtModule :=
  constant_module VUndefined (Some (Throw (Thrown "getMeta failed"))).

(** A callable that returns the falsy value [0]. *)
Definition setup_zero : NuxtModule := constant_module (VNum 0) None.

(** [my-mod/module] loads as [f]; there is no [module.json]. *)
Definition host_plain (f : NuxtModule) : Host :=
  table_host [] [] [("my-mod/module", Ok (AFun f))] [] [] [] false.


(** One layer of the project and one vendored layer. *)
Definition layered_nuxt : Nuxt :=
  {| _layers := [{| cwd := "/proj";
                    config_srcDir := None;
                    config_dir_modules := Some "extensions" |};
                 {| cwd := "/proj/node_modules/theme";
                    config_srcDir := None;
                    config_dir_modules := None |}];
     build_transpile := [];
     modulesDir := [];
     _installedModules := None;
     moduleContainer := VObj ∅ |}.

End Cases.

(** ** Facts about the string primitives *)

Module StrFacts.
Import Str.

Lemma app_nil (s : string) : "" +:+ s = s.
Proof. reflexivity. Qed.

Lemma app_cons (c : ascii) (a s : string) :
  String c a +:+ s = String c (a +:+ s).
Proof. reflexivity. Qed.

Lemma app_assoc3 (a b c : string) : (a +:+ b) +:+ c = a +:+ b +:+ c.
Proof.
  induction a as [|x a IH]; [done|]. by rewrite !app_cons, IH.
Qed.

Lemma strip_prefix_spec pre s rest :
  strip_prefix pre s = Some rest <-> s = pre +:+ rest.
Proof.
  revert s; induction pre as [|a pre IH]; intros s; simpl.
  - split; intros H; [by inversion H | by subst].
  - destruct s as [|b s]; [split; intros H; discriminate|].
    destruct (Ascii.eqb_spec a b) as [->|Hne].
    + rewrite IH. split; intros H; [by subst | by inversion H].
    + split; intros H; [discriminate | inversion H; congruence].
Qed.

Lemma cut_spec sep s a b :
  cut sep s = Some (a, b) -> s = a +:+ sep +:+ b.
Proof.
  revert a b; induction s as [|c s IH]; intros a b; simpl.
  - destruct (strip_prefix sep "") eqn:E; [|discriminate].
    intros [= <- <-]. by apply strip_prefix_spec in E.
  - destruct (strip_prefix sep (String c s)) eqn:E.
    + intros [= <- <-]. by apply strip_prefix_spec in E.
    + destruct (cut sep s) as [[a' b']|] eqn:E'; [|discriminate].
      intros [= <- <-]. rewrite app_cons. f_equal. by apply IH.
Qed.

Lemma strip_prefix_length pre s rest :
  strip_prefix pre s = Some rest ->
  String.length s = String.length pre + String.length rest.
Proof.
  revert s; induction pre as [|a pre IH]; intros s; simpl.
  - by intros [= ->].
  - destruct s as [|b s]; [discriminate|].
    destruct (Ascii.eqb a b); [|discriminate].
    intros H%IH. simpl. lia.
Qed.

Lemma cut_length sep s a b :
  cut sep s = Some (a, b) ->
  String.length s = String.length a + String.length sep + String.length b.
Proof.
  revert a b; induction s as [|c s IH]; intros a b; simpl.
  - destruct (strip_prefix sep "") eqn:E; [|discriminate].
    intros [= <- <-]. by apply strip_prefix_length in E.
  - destruct (strip_prefix sep (String c s)) eqn:E.
    + intros [= <- <-]. by apply strip_prefix_length in E.
    + destruct (cut sep s) as [[a' b']|] eqn:E'; [|discriminate].
      intros [= <- <-]. simpl. f_equal. by apply IH.
Qed.

Lemma cut_tail sep c s :
  cut sep (String c s) = None -> cut sep s = None.
Proof.
  simpl. destruct (strip_prefix sep (String c s)); [discriminate|].
  by destruct (cut sep s) as [[??]|].
Qed.

Lemma cut_None_iff sep s : cut sep s = None <-> ~ occurs sep s.
Proof.
  split.
  - induction s as [|c s IH]; intros Hcut (a & b & Heq).
    + destruct a as [|x a]; [|discriminate].
      rewrite app_nil in Heq. apply strip_prefix_spec in Heq.
      simpl in Hcut. by rewrite Heq in Hcut.
    + destruct a as [|x a].
      * rewrite app_nil in Heq.
        assert (strip_prefix sep (String c s) = Some b) as Hp
          by (by apply strip_prefix_spec).
        simpl in Hcut. by rewrite Hp in Hcut.
      * rewrite app_cons in Heq. injection Heq as -> Heq.
        apply IH; [by eapply cut_tail | by exists a, b].
  - intros Hno. destruct (cut sep s) as [[a b]|] eqn:E; [|done].
    exfalso. apply Hno. exists a, b. by apply cut_spec.
Qed.

Lemma includes_spec sep s : includes sep s = true <-> occurs sep s.
Proof.
  unfold includes. destruct (cut sep s) as [[a b]|] eqn:E.
  - split; [intros _|done]. exists a, b. by apply cut_spec.
  - split; [done|]. intros H. by apply cut_None_iff in E.
Qed.

(** [split] without the bookkeeping of its termination argument. *)
Lemma split_unfold c sep' s :
  split (String c sep') s =
  match cut (String c sep') s with
  | Some (a, b) => a :: split (String c sep') b
  | None => [s]
  end.
Proof.
  funelim (split (String c sep') s).
  - discriminate.
  - match goal with H : String _ _ = String _ _ |- _ => injection H as -> -> end.
    by rewrite Hcut.
  - match goal with H : String _ _ = String _ _ |- _ => injection H as -> -> end.
    by rewrite e.
Qed.

Lemma split_nonempty c sep' s : split (String c sep') s <> [].
Proof.
  rewrite split_unfold. by destruct (cut (String c sep') s) as [[??]|].
Qed.

(** The last piece of a split: it holds no separator, it is the whole
    string when the string holds none, and otherwise the string ends with
    a separator followed by it. *)
Lemma pop_split c sep' s :
  exists r,
    pop (split (String c sep') s) = Some r
    /\ ~ occurs (String c sep') r
    /\ (~ occurs (String c sep') s -> r = s)
    /\ (occurs (String c sep') s ->
        exists pre, s = pre +:+ String c sep' +:+ r).
Proof.
  remember (String.length s) as n eqn:Hn.
  revert s Hn. induction n as [n IH] using lt_wf_ind. intros s ->.
  rewrite split_unfold.
  destruct (cut (String c sep') s) as [[a b]|] eqn:E.
  - pose proof (cut_length _ _ _ _ E) as Hlen. simpl in Hlen.
    destruct (IH (String.length b) ltac:(lia) b eq_refl)
      as (r & Hpop & Hno & Hsame & Hpre).
    exists r. repeat split.
    + unfold pop in *.
      destruct (split (String c sep') b) eqn:Es; [discriminate|done].
    + done.
    + intros Hs. exfalso. apply Hs. exists a, b. by apply cut_spec.
    + intros _. apply cut_spec in E.
      destruct (cut (String c sep') b) as [[a' b']|] eqn:Eb.
      * destruct Hpre as [pre ->].
        { exists a', b'. by apply cut_spec. }
        exists (a +:+ String c sep' +:+ pre). subst s.
        by rewrite !app_assoc3.
      * apply cut_None_iff in Eb. rewrite (Hsame Eb). by exists a.
  - exists s. apply cut_None_iff in E. by repeat split.
Qed.

(** *** The piece after the last separator

    When no proper prefix of the separator is also a suffix of it, two
    occurrences cannot overlap, so the occurrence in front of the last piece
    is the rightmost one. *)

Lemma app_length (a b : string) :
  String.length (a +:+ b) = String.length a + String.length b.
Proof. induction a as [|x a IH]; [done|]. rewrite app_cons. simpl. lia. Qed.

Lemma app_eq_app (a x pre y : string) :
  a +:+ x = pre +:+ y ->
  String.length pre <= String.length a ->
  exists u, a = pre +:+ u /\ y = u +:+ x.
Proof.
  revert a. induction pre as [|c pre IH]; intros a Heq Hlen.
  - exists a. by rewrite !app_nil in *.
  - destruct a as [|c' a]; [simpl in Hlen; lia|].
    rewrite !app_cons in Heq. injection Heq as -> Heq.
    destruct (IH a Heq) as (u & -> & ->); [simpl in Hlen; lia|].
    by exists u.
Qed.

Lemma splits_complete (s u v : string) : s = u +:+ v -> (u, v) ∈ splits s.
Proof.
  revert u. induction s as [|c s IH]; intros u Heq.
  - destruct u; [|discriminate]. rewrite app_nil in Heq. subst v.
    apply list_elem_of_singleton. done.
  - destruct u as [|c' u].
    + rewrite app_nil in Heq. subst v. simpl. left.
    + rewrite app_cons in Heq. injection Heq as <- Heq.
      simpl. right. apply list_elem_of_fmap.
      exists (u, v). split; [done|]. by apply IH.
Qed.

Lemma unbordered_spec sep u v w :
  unbordered sep = true ->
  sep = u +:+ v -> sep = v +:+ w -> u = "" \/ v = "".
Proof.
  unfold unbordered. rewrite forallb_forall. intros Hall Huv Hvw.
  apply splits_complete, list_elem_of_In, Hall in Huv. simpl in Huv.
  destruct (String.eqb_spec u ""); [by left|].
  destruct (String.eqb_spec v ""); [by right|].
  simpl in Huv. apply negb_true_iff, bool_decide_eq_false in Huv.
  exfalso. apply Huv. exists w. by apply strip_prefix_spec.
Qed.

Lemma last_occurrence sep pre r a b :
  unbordered sep = true ->
  ~ occurs sep r ->
  pre +:+ sep +:+ r = a +:+ sep +:+ b ->
  String.length r <= String.length b.
Proof.
  intros Hub Hno Heq.
  destruct (le_lt_dec (String.length r) (String.length b)) as [|Hlt]; [done|].
  exfalso.
  assert (String.length pre <= String.length a) as Hle.
  { apply (f_equal String.length) in Heq. rewrite !app_length in Heq. lia. }
  symmetry in Heq.
  destruct (app_eq_app _ _ _ _ Heq Hle) as (u & -> & Hu).
  destruct (le_lt_dec (String.length sep) (String.length u)) as [Hsu|Hsu].
  - symmetry in Hu.
    destruct (app_eq_app _ _ _ _ Hu Hsu) as (u' & -> & ->).
    apply Hno. by exists u', b.
  - destruct (app_eq_app sep r u (sep +:+ b) Hu ltac:(lia)) as (v & Hsep & Hv).
    assert (String.length v <= String.length sep) as Hvs.
    { rewrite Hsep, app_length. lia. }
    destruct (app_eq_app sep b v r Hv Hvs) as (w & Hsep' & _).
    apply (f_equal String.length) in Heq. rewrite !app_length in Heq.
    pose proof (f_equal String.length Hsep) as Hlen.
    rewrite app_length in Hlen.
    destruct (unbordered_spec sep u v w Hub Hsep Hsep') as [-> | ->];
      simpl in *; lia.
Qed.

End StrFacts.

(** ** Facts about the engine *)

(** Unfolds the operations of [M]. *)
Ltac run_monad :=
  unfold bind, ret, throw, get, modify, call, settle, attempt, after; simpl.

Section EngineFacts.

Variable host : Host.

(** *** [getDirectory] and [normalizeModuleTranspilePath] *)

Lemma getDirectory_run p nuxt :
  getDirectory host p nuxt =
    (if isAbsolute host p then [EvLstatSync p] else [], nuxt,
     Ok (if isAbsolute host p
            && match lstatSync host p with
               | Ok k => isFile k
               | Throw _ => false
               end
         then dirname host p else p)).
Proof.
  unfold getDirectory. run_monad.
  destruct (isAbsolute host p); simpl; [|done].
  destruct (lstatSync host p) as [k|e]; simpl; [|done].
  by destruct (isFile k).
Qed.

Lemma normalizeModuleTranspilePath_run p nuxt :
  exists tr d,
    getDirectory host p nuxt = (tr, nuxt, Ok d)
    /\ normalizeModuleTranspilePath host p nuxt =
         (tr, nuxt, Ok (default "" (Str.pop (Str.split "node_modules/" d)))).
Proof.
  unfold normalizeModuleTranspilePath, bind.
  rewrite getDirectory_run. simpl. rewrite app_nil_r. eauto.
Qed.

(** *** The loaders *)

Lemma loadModule_run src nuxt :
  loadModule host src nuxt =
    match importModule host src (modulesDir nuxt) with
    | Ok v =>
        if any_nullish v
        then ([EvImportModule src (modulesDir nuxt);
               EvRequireModule src (modulesDir nuxt)], nuxt,
              requireModule host src (modulesDir nuxt))
        else ([EvImportModule src (modulesDir nuxt)], nuxt, Ok v)
    | Throw _ =>
        ([EvImportModule src (modulesDir nuxt);
          EvRequireModule src (modulesDir nuxt)], nuxt,
         requireModule host src (modulesDir nuxt))
    end.
Proof.
  unfold loadModule. run_monad.
  destruct (importModule host src (modulesDir nuxt)) as [v|e]; simpl; [|done].
  by destruct (any_nullish v).
Qed.

Lemma loadModule_context src nuxt :
  context_of (loadModule host src nuxt) = nuxt.
Proof.
  rewrite loadModule_run.
  destruct (importModule host src (modulesDir nuxt)) as [v|e]; [|done].
  by destruct (any_nullish v).
Qed.

Lemma resolved_paths_app tr tr' :
  resolved_paths (tr ++ tr') = resolved_paths tr ++ resolved_paths tr'.
Proof. apply omap_app. Qed.

Lemma loadModule_resolves_nothing src nuxt :
  resolved_paths (trace_of (loadModule host src nuxt)) = [].
Proof.
  rewrite loadModule_run.
  destruct (importModule host src (modulesDir nuxt)) as [v|e]; [|done].
  by destruct (any_nullish v).
Qed.

Lemma tryCandidate_run src vars nuxt :
  tryCandidate host src vars nuxt =
    let sidecar := join host (dirname host src) "module.json" in
    match loadModule host src nuxt with
    | (tr, nuxt', Throw e) =>
        (tr, nuxt',
         Ok ({| nuxtModule := nuxtModule vars;
                buildTimeModuleMeta := buildTimeModuleMeta vars;
                error := Some e |}, Continue))
    | (tr, nuxt', Ok m) =>
        if existsSync host sidecar then
          match readFile host sidecar with
          | Throw e =>
              (tr ++ [EvExistsSync sidecar; EvReadFile sidecar], nuxt',
               Ok ({| nuxtModule := m;
                      buildTimeModuleMeta := buildTimeModuleMeta vars;
                      error := Some e |}, Continue))
          | Ok text =>
              match JSON_parse host text with
              | Throw e =>
                  (tr ++ [EvExistsSync sidecar; EvReadFile sidecar;
                          EvJsonParse text], nuxt',
                   Ok ({| nuxtModule := m;
                          buildTimeModuleMeta := buildTimeModuleMeta vars;
                          error := Some e |}, Continue))
              | Ok json =>
                  (tr ++ [EvExistsSync sidecar; EvReadFile sidecar;
                          EvJsonParse text], nuxt',
                   Ok ({| nuxtModule := m;
                          buildTimeModuleMeta := json;
                          error := error vars |}, Break))
              end
          end
        else
          (tr ++ [EvExistsSync sidecar], nuxt',
           Ok ({| nuxtModule := m;
                  buildTimeModuleMeta := buildTimeModuleMeta vars;
                  error := error vars |}, Break))
    end.
Proof.
  unfold tryCandidate, bind, attempt at 1.
  destruct (loadModule host src nuxt) as [[tr nuxt'] [m|e]]; simpl;
    [|by rewrite app_nil_r].
  run_monad. destruct (existsSync host _); simpl; [|done].
  destruct (readFile host _) as [text|e]; simpl; [|done].
  by destruct (JSON_parse host text).
Qed.

Lemma tryCandidate_returns src vars nuxt :
  exists tr vars' exit,
    tryCandidate host src vars nuxt = (tr, nuxt, Ok (vars', exit))
    /\ resolved_paths tr = [].
Proof.
  rewrite tryCandidate_run.
  pose proof (loadModule_context src nuxt) as Hctx.
  pose proof (loadModule_resolves_nothing src nuxt) as Htr.
  destruct (loadModule host src nuxt) as [[tr nuxt'] [m|e]];
    unfold context_of, trace_of in *; simpl in *; subst nuxt'; [|eauto 6].
  destruct (existsSync host _); [|eexists _, _, _; split; [done|]].
  - destruct (readFile host _) as [text|e];
      [destruct (JSON_parse host text)|];
      (eexists _, _, _; split; [done|]);
      by rewrite resolved_paths_app, Htr.
  - by rewrite resolved_paths_app, Htr.
Qed.

Lemma candidateLoop_cons path rest vars nuxt :
  candidateLoop host (path :: rest) vars nuxt =
    match resolvePath host path with
    | Throw e => ([EvResolvePath path], nuxt, Throw e)
    | Ok src =>
        match tryCandidate host src vars nuxt with
        | (tr, nuxt', Ok (vars', Break)) =>
            (EvResolvePath path :: tr, nuxt', Ok vars')
        | (tr, nuxt', Ok (vars', Continue)) =>
            after (EvResolvePath path :: tr) (candidateLoop host rest vars' nuxt')
        | (tr, nuxt', Throw e) => (EvResolvePath path :: tr, nuxt', Throw e)
        end
    end.
Proof.
  simpl. unfold bind at 1, call.
  destruct (resolvePath host path) as [src|e]; [|done].
  unfold bind.
  destruct (tryCandidate host src vars nuxt) as [[tr nuxt'] [[vars' []]|e]];
    simpl; try done.
  - by rewrite app_nil_r.
  - unfold after. by destruct (candidateLoop host rest vars' nuxt') as [[??]?].
Qed.

Lemma candidateLoop_context paths vars nuxt :
  context_of (candidateLoop host paths vars nuxt) = nuxt.
Proof.
  revert vars. induction paths as [|path rest IH]; intros vars; [done|].
  rewrite candidateLoop_cons.
  destruct (resolvePath host path) as [src|e]; [|done].
  destruct (tryCandidate_returns src vars nuxt) as (tr & vars' & exit & -> & _).
  destruct exit; [done|]. apply IH.
Qed.

(** [loadNuxtModuleInstance] only reads the build context. *)
Lemma loadNuxtModuleInstance_context reference nuxt :
  context_of (loadNuxtModuleInstance host reference nuxt) = nuxt.
Proof.
  unfold loadNuxtModuleInstance.
  destruct reference as [f|v]; [done|].
  destruct v; try done.
  unfold bind at 1. unfold bind at 1.
  pose proof (candidateLoop_context (candidatePaths host s)
                (initial_vars s) nuxt) as Hctx.
  unfold initial_vars in Hctx.
  destruct (candidateLoop host _ _ nuxt) as [[tr nuxt'] [vars|e]];
    unfold context_of in Hctx; simpl in Hctx; subst nuxt'; [|done].
  destruct (error vars) as [err|]; run_monad.
  - destruct (any_truthy (nuxtModule vars)); simpl; [|done].
    by destruct (nuxtModule vars).
  - by destruct (nuxtModule vars).
Qed.

Lemma candidateLoop_resolved paths vars nuxt :
  resolved_paths (trace_of (candidateLoop host paths vars nuxt))
    `prefix_of` paths.
Proof.
  revert vars nuxt.
  induction paths as [|path rest IH]; intros vars nuxt; [done|].
  rewrite candidateLoop_cons.
  destruct (resolvePath host path) as [src|e];
    [|apply (prefix_cons path [] rest), prefix_nil].
  destruct (tryCandidate_returns src vars nuxt)
    as (tr & vars' & exit & -> & Htr).
  unfold trace_of in *; simpl in *.
  destruct exit; simpl.
  - rewrite Htr. apply prefix_cons, prefix_nil.
  - rewrite resolved_paths_app, Htr. simpl. apply prefix_cons, IH.
Qed.

(** *** [installModule] *)

Lemma defu_lookup own defaults key :
  defu own defaults !! key =
    match default ∅ own !! key with
    | Some v => Some v
    | None => defaults !! key
    end.
Proof.
  unfold defu. rewrite lookup_union.
  destruct (default ∅ own !! key), (defaults !! key); done.
Qed.

Lemma defu_no_defaults own : defu own ∅ = default ∅ own.
Proof. unfold defu. apply (right_id_L ∅ (∪)). Qed.

(** An install that gets past the abort test: what it appends to the
    ledger. *)
Lemma installModule_writes reference inlineOptions nuxt tr f build nuxt1 returned own :
  loadNuxtModuleInstance host reference nuxt = (tr, nuxt, Ok (f, build)) ->
  run f (receiver host nuxt) inlineOptions nuxt = (nuxt1, Ok returned) ->
  is_false (install_result returned) = false ->
  declared_meta f = Ok own ->
  exists tr' nuxt2,
    installModule host reference inlineOptions nuxt = (tr ++ tr', nuxt2, Ok tt)
    /\ ledger nuxt2 =
         ledger nuxt1 ++
         [{| meta := defu own build;
             timings := get_prop (install_result returned) "timings";
             entryPath := option_map (resolveAlias host) (specifier_of reference) |}]
    /\ (specifier_of reference = None ->
        tr' = [] /\
        nuxt2 = push_installedModule
                  {| meta := defu own build;
                     timings := get_prop (install_result returned) "timings";
                     entryPath := None |} nuxt1).
Proof.
  intros Hload Hrun Hres Hmeta.
  unfold installModule. unfold bind at 1. rewrite Hload.
  unfold bind at 1, get. unfold bind at 1, invoke.
  unfold receiver in Hrun. rewrite Hrun.
  unfold install_result in Hres. rewrite Hres.
  unfold declared_meta in Hmeta.
  destruct (specifier_of reference) as [specifier|] eqn:Hspec.
  - unfold bind at 1. unfold bind at 1.
    destruct (normalizeModuleTranspilePath_run specifier nuxt1)
      as (trd & d & Hdir & ->).
    unfold bind at 1, modify at 1. unfold bind at 1.
    rewrite getDirectory_run in *. injection Hdir as <- <-.
    set (d := if isAbsolute host specifier && _ then _ else _).
    set (bookkeeping := if negb (d =? specifier)%string && _ then _ else _).
    assert (exists nuxt', bookkeeping (push_transpile
               (default "" (Str.pop (Str.split "node_modules/" d))) nuxt1)
              = ([], nuxt', Ok tt) /\ ledger nuxt' = ledger nuxt1)
      as (nuxt' & -> & Hledger).
    { subst bookkeeping. clearbody d.
      destruct (negb (d =? specifier)%string && _); eexists; split; done. }
    run_monad.
    destruct (getMeta f) as [[m|e]|]; simplify_eq; simpl;
      rewrite !app_nil_r; eexists _, _; (split; [reflexivity|]);
      (split; [|done]); unfold ledger in *; simpl; by rewrite Hledger.
  - run_monad.
    destruct (getMeta f) as [[m|e]|]; simplify_eq; simpl;
      eexists [], _; rewrite !app_nil_r; (split; [reflexivity|]);
      (split; [done|]); intros _; done.
Qed.

(** *** [loadNuxtModuleInstance] on a string specifier *)

Lemma loadNuxtModuleInstance_string specifier nuxt :
  loadNuxtModuleInstance host (AVal (VStr specifier)) nuxt =
    match candidateLoop host (candidatePaths host specifier)
            (initial_vars specifier) nuxt with
    | (tr, nuxt', Throw e) => (tr, nuxt', Throw e)
    | (tr, nuxt', Ok vars) =>
        let finish :=
          match nuxtModule vars with
          | AFun f => (tr, nuxt', Ok (f, buildTimeModuleMeta vars))
          | AVal v =>
              (tr, nuxt',
               Throw (TypeError ("Nuxt module should be a function: "
                                 +:+ toString v)))
          end in
        match error vars with
        | Some err =>
            if any_truthy (nuxtModule vars) then finish
            else (tr ++ [EvLoggerError
                           ("Error while requiring module `"
                            +:+ any_toString (nuxtModule vars)
                            +:+ "`: " +:+ error_toString err)],
                  nuxt', Throw err)
        | None => finish
        end
    end.
Proof.
  unfold loadNuxtModuleInstance, initial_vars.
  unfold bind at 1. unfold bind at 1.
  destruct (candidateLoop host _ _ nuxt) as [[tr nuxt'] [vars|e]]; [|done].
  destruct (error vars) as [err|]; run_monad.
  - destruct (any_truthy (nuxtModule vars)); simpl; [|done].
    destruct (nuxtModule vars); by rewrite !app_nil_r.
  - destruct (nuxtModule vars); by rewrite !app_nil_r.
Qed.

Lemma loadModule_outcome src nuxt r :
  outcome_of (loadModule host src nuxt) = r ->
  exists tr, loadModule host src nuxt = (tr, nuxt, r)
             /\ resolved_paths tr = [].
Proof.
  intros Hout.
  pose proof (loadModule_context src nuxt) as Hctx.
  pose proof (loadModule_resolves_nothing src nuxt) as Htr.
  destruct (loadModule host src nuxt) as [[tr nuxt'] r'].
  unfold outcome_of, context_of, trace_of in *; simpl in *; subst.
  by exists tr.
Qed.

(** A candidate that resolves but fails to load: the error is retained and
    the loop moves on. *)
Lemma candidateLoop_load_fails path rest vars nuxt src e :
  resolvePath host path = Ok src ->
  outcome_of (loadModule host src nuxt) = Throw e ->
  exists tr,
    candidateLoop host (path :: rest) vars nuxt =
      after tr (candidateLoop host rest
                  {| nuxtModule := nuxtModule vars;
                     buildTimeModuleMeta := buildTimeModuleMeta vars;
                     error := Some e |} nuxt).
Proof.
  intros Hres (tr & Hload & _)%loadModule_outcome.
  rewrite candidateLoop_cons, Hres, tryCandidate_run, Hload. eauto.
Qed.

Lemma outcome_of_after {A} tr (out : list Event * Nuxt * Result A) :
  outcome_of (after tr out) = outcome_of out.
Proof. done. Qed.

(** When every candidate resolves and fails to load, the loop ends with the
    specifier still in [nuxtModule] and the last error retained. *)
Lemma candidateLoop_all_fail specifier nuxt src1 src2 src3 e1 e2 e3 :
  resolvePath host (join host specifier "nuxt") = Ok src1 ->
  outcome_of (loadModule host src1 nuxt) = Throw e1 ->
  resolvePath host (join host specifier "module") = Ok src2 ->
  outcome_of (loadModule host src2 nuxt) = Throw e2 ->
  resolvePath host specifier = Ok src3 ->
  outcome_of (loadModule host src3 nuxt) = Throw e3 ->
  outcome_of (candidateLoop host (candidatePaths host specifier)
                (initial_vars specifier) nuxt)
  = Ok {| nuxtModule := AVal (VStr specifier);
          buildTimeModuleMeta := ∅;
          error := Some e3 |}.
Proof.
  intros Hr1 Hl1 Hr2 Hl2 Hr3 Hl3. unfold candidatePaths.
  destruct (candidateLoop_load_fails _ [join host specifier "module"; specifier]
              (initial_vars specifier) nuxt _ _ Hr1 Hl1) as [tr1 ->].
  rewrite outcome_of_after.
  destruct (candidateLoop_load_fails _ [specifier]
              {| nuxtModule := nuxtModule (initial_vars specifier);
                 buildTimeModuleMeta := buildTimeModuleMeta (initial_vars specifier);
                 error := Some e1 |} nuxt _ _ Hr2 Hl2) as [tr2 ->].
  rewrite outcome_of_after.
  match goal with
  | |- outcome_of (candidateLoop host _ ?vars nuxt) = _ =>
      destruct (candidateLoop_load_fails _ [] vars nuxt _ _ Hr3 Hl3) as [tr3 ->]
  end.
  by rewrite outcome_of_after.
Qed.

(** The outcome of [loadNuxtModuleInstance] when every candidate fails to
    load: the retained error is thrown only for the empty specifier; any
    other specifier is reported as not being a function. *)
Lemma loadNuxtModuleInstance_all_fail specifier nuxt src1 src2 src3 e1 e2 e3 :
  resolvePath host (join host specifier "nuxt") = Ok src1 ->
  outcome_of (loadModule host src1 nuxt) = Throw e1 ->
  resolvePath host (join host specifier "module") = Ok src2 ->
  outcome_of (loadModule host src2 nuxt) = Throw e2 ->
  resolvePath host specifier = Ok src3 ->
  outcome_of (loadModule host src3 nuxt) = Throw e3 ->
  outcome_of (loadNuxtModuleInstance host (AVal (VStr specifier)) nuxt)
  = if String.eqb specifier ""
    then Throw e3
    else Throw (TypeError ("Nuxt module should be a function: " +:+ specifier)).
Proof.
  intros Hr1 Hl1 Hr2 Hl2 Hr3 Hl3.
  pose proof (candidateLoop_all_fail specifier nuxt _ _ _ _ _ _
                Hr1 Hl1 Hr2 Hl2 Hr3 Hl3) as Hloop.
  rewrite loadNuxtModuleInstance_string.
  destruct (candidateLoop host _ _ nuxt) as [[tr nuxt'] r].
  unfold outcome_of in *; simpl in *; subst r. simpl.
  by destruct (String.eqb specifier "").
Qed.

End EngineFacts.

(** ** Properties of the installation engine *)

(** C9: [getDirectory p] never throws.  It returns [dirname p] when [p] is
    absolute and [lstatSync p] reports a regular file, and [p] itself in every
    other case, a failing [lstatSync] included; the build context is left as
    it was. *)
Theorem getDirectory_never_throws (host : Host) (p : string) (nuxt : Nuxt) :
  exists tr,
    getDirectory host p nuxt =
      (tr, nuxt,
       Ok (if isAbsolute host p
              && match lstatSync host p with
                 | Ok k => isFile k
                 | Throw _ => false
                 end
           then dirname host p else p)).
Proof. rewrite getDirectory_run. eauto. Qed.

Example getDirectory_of_file :
  outcome_of (getDirectory Sample.host_package
                "/proj/node_modules/foo/index.js" Sample.empty_nuxt)
  = Ok "/proj/node_modules/foo".
Proof. reflexivity. Qed.

Example getDirectory_of_directory :
  outcome_of (getDirectory Sample.host_package
                "/proj/node_modules/foo" Sample.empty_nuxt)
  = Ok "/proj/node_modules/foo".
Proof. reflexivity. Qed.

Example getDirectory_of_missing_path :
  Sample.host_package.(lstatSync) "/nonexistent/abs/path"
  = Throw (Thrown "ENOENT: /nonexistent/abs/path")
  /\ outcome_of (getDirectory Sample.host_package
                   "/nonexistent/abs/path" Sample.empty_nuxt)
     = Ok "/nonexistent/abs/path".
Proof. split; reflexivity. Qed.

Lemma normalizeModuleTranspilePath_of_directory host p nuxt d :
  outcome_of (getDirectory host p nuxt) = Ok d ->
  outcome_of (normalizeModuleTranspilePath host p nuxt)
  = Ok (default "" (Str.pop (Str.split "node_modules/" d))).
Proof.
  destruct (normalizeModuleTranspilePath_run host p nuxt) as (tr & d' & -> & ->).
  unfold outcome_of. simpl. by intros [= ->].
Qed.

(** C8 (as amended): [normalizeModuleTranspilePath p] returns the part of
    [getDirectory p] that follows its last occurrence of [node_modules/], and
    [getDirectory p] itself when there is no occurrence.  For
    [/proj/node_modules/foo/index.js] that is [foo/index.js] when
    [getDirectory] leaves the path as it is, and [foo] when [getDirectory]
    reduces it to the directory [/proj/node_modules/foo]. *)
Theorem normalizeModuleTranspilePath_fragment :
  (forall (host : Host) (p : string) (nuxt : Nuxt),
      exists tr d r,
        getDirectory host p nuxt = (tr, nuxt, Ok d)
        /\ normalizeModuleTranspilePath host p nuxt = (tr, nuxt, Ok r)
        /\ ~ Str.occurs "node_modules/" r
        /\ (~ Str.occurs "node_modules/" d -> r = d)
        /\ (forall a b,
               d = a +:+ "node_modules/" +:+ b ->
               String.length r <= String.length b
               /\ exists pre, d = pre +:+ "node_modules/" +:+ r))
  /\ (forall (host : Host) (nuxt : Nuxt),
         outcome_of (getDirectory host "/proj/node_modules/foo/index.js" nuxt)
         = Ok "/proj/node_modules/foo/index.js" ->
         outcome_of (normalizeModuleTranspilePath host
                       "/proj/node_modules/foo/index.js" nuxt)
         = Ok "foo/index.js")
  /\ (forall (host : Host) (nuxt : Nuxt),
         outcome_of (getDirectory host "/proj/node_modules/foo/index.js" nuxt)
         = Ok "/proj/node_modules/foo" ->
         outcome_of (normalizeModuleTranspilePath host
                       "/proj/node_modules/foo/index.js" nuxt)
         = Ok "foo").
Proof.
  split; [|split].
  - intros host p nuxt.
    destruct (normalizeModuleTranspilePath_run host p nuxt) as (tr & d & Hd & Hn).
    destruct (StrFacts.pop_split "n" "ode_modules/" d)
      as (r & Hpop & Hno & Hsame & Hpre).
    exists tr, d, r. rewrite Hn, Hpop. repeat split; try done.
    + destruct Hpre as [pre Hpre]; [by exists a, b|].
      apply (StrFacts.last_occurrence "node_modules/" pre r a b);
        [reflexivity | done | congruence].
    + apply Hpre. by exists a, b.
  - intros host nuxt H.
    by rewrite (normalizeModuleTranspilePath_of_directory _ _ _ _ H).
  - intros host nuxt H.
    by rewrite (normalizeModuleTranspilePath_of_directory _ _ _ _ H).
Qed.

(** C10: when the dynamic import of a candidate rejects, or resolves to
    [null] or [undefined], [requireModule] is called on the same path and its
    result is the result of the load: its value becomes [nuxtModule], its
    error is retained and the loop continues. *)
Theorem nullish_import_falls_back_to_require
    (host : Host) (src : string) (vars : LoopVars) (nuxt : Nuxt) :
  modern_load_failed host src (modulesDir nuxt) ->
  loadModule host src nuxt =
    ([EvImportModule src (modulesDir nuxt); EvRequireModule src (modulesDir nuxt)],
     nuxt, requireModule host src (modulesDir nuxt))
  /\ (forall e,
         requireModule host src (modulesDir nuxt) = Throw e ->
         tryCandidate host src vars nuxt =
           ([EvImportModule src (modulesDir nuxt);
             EvRequireModule src (modulesDir nuxt)], nuxt,
            Ok ({| nuxtModule := nuxtModule vars;
                   buildTimeModuleMeta := buildTimeModuleMeta vars;
                   error := Some e |}, Continue)))
  /\ (forall m,
         requireModule host src (modulesDir nuxt) = Ok m ->
         exists tr vars' exit,
           tryCandidate host src vars nuxt = (tr, nuxt, Ok (vars', exit))
           /\ nuxtModule vars' = m).
Proof.
  intros Hfail.
  assert (loadModule host src nuxt =
            ([EvImportModule src (modulesDir nuxt);
              EvRequireModule src (modulesDir nuxt)],
             nuxt, requireModule host src (modulesDir nuxt))) as Hload.
  { rewrite loadModule_run. unfold modern_load_failed in Hfail.
    destruct (importModule host src (modulesDir nuxt)) as [v|e]; [|done].
    by rewrite Hfail. }
  split; [done|]. split.
  - intros e He. by rewrite tryCandidate_run, Hload, He.
  - intros m Hm. rewrite tryCandidate_run, Hload, Hm. simpl.
    destruct (existsSync host _); [|eauto 6].
    destruct (readFile host _) as [text|e]; [|eauto 6].
    destruct (JSON_parse host text); eauto 6.
Qed.

(** A dynamic import that resolves to a value other than [null] and
    [undefined] is the result of the load; [requireModule] is not called. *)
Lemma non_nullish_import_is_kept
    (host : Host) (src : string) (nuxt : Nuxt) (v : JsAny) :
  importModule host src (modulesDir nuxt) = Ok v ->
  any_nullish v = false ->
  loadModule host src nuxt = ([EvImportModule src (modulesDir nuxt)], nuxt, Ok v).
Proof. intros Himport Hv. by rewrite loadModule_run, Himport, Hv. Qed.

(** C4: when the callable returns exactly [false], [installModule] returns
    normally having made no call beyond those of the loader, and the build
    context is the one the callable left: nothing is appended to
    [_installedModules], to [build.transpile] or to [modulesDir]. *)
Theorem installModule_false_aborts
    (host : Host) (reference : JsAny) (inlineOptions : JsVal) (nuxt : Nuxt)
    (tr : list Event) (f : NuxtModule) (build : Meta) (nuxt1 : Nuxt) :
  loadNuxtModuleInstance host reference nuxt = (tr, nuxt, Ok (f, build)) ->
  run f (receiver host nuxt) inlineOptions nuxt = (nuxt1, Ok (VBool false)) ->
  installModule host reference inlineOptions nuxt = (tr, nuxt1, Ok tt)
  /\ _installedModules (context_of (installModule host reference inlineOptions nuxt))
     = _installedModules nuxt1
  /\ build_transpile (context_of (installModule host reference inlineOptions nuxt))
     = build_transpile nuxt1
  /\ modulesDir (context_of (installModule host reference inlineOptions nuxt))
     = modulesDir nuxt1.
Proof.
  intros Hload Hrun.
  assert (installModule host reference inlineOptions nuxt = (tr, nuxt1, Ok tt))
    as ->; [|done].
  unfold installModule. unfold bind at 1. rewrite Hload.
  unfold bind at 1, get. unfold bind at 1, invoke.
  unfold receiver in Hrun. rewrite Hrun. simpl. by rewrite !app_nil_r.
Qed.

(** C5: an install that writes a ledger entry appends one entry whose [meta]
    is [defu(getMeta(), buildTimeModuleMeta)]: on every key the callable's own
    value when it declares one, the build-time value otherwise.  Build-time
    [{a:1,b:2}] under runtime [{b:3}] gives [{a:1,b:3}]. *)
Theorem installModule_meta_merge
    (host : Host) (reference : JsAny) (inlineOptions : JsVal) (nuxt : Nuxt)
    (tr : list Event) (f : NuxtModule) (build : Meta) (nuxt1 : Nuxt)
    (returned : JsVal) (own : option Meta) :
  loadNuxtModuleInstance host reference nuxt = (tr, nuxt, Ok (f, build)) ->
  run f (receiver host nuxt) inlineOptions nuxt = (nuxt1, Ok returned) ->
  is_false (install_result returned) = false ->
  declared_meta f = Ok own ->
  (exists entry,
      outcome_of (installModule host reference inlineOptions nuxt) = Ok tt
      /\ ledger (context_of (installModule host reference inlineOptions nuxt))
         = ledger nuxt1 ++ [entry]
      /\ meta entry = defu own build
      /\ forall key,
           meta entry !! key =
             match default ∅ own !! key with
             | Some v => Some v
             | None => build !! key
             end)
  /\ defu (Some {[ "b" := VNum 3 ]}) {[ "a" := VNum 1; "b" := VNum 2 ]}
     = ({[ "a" := VNum 1; "b" := VNum 3 ]} : Meta).
Proof.
  intros Hload Hrun Hres Hmeta. split.
  - destruct (installModule_writes host _ _ _ _ _ _ _ _ _ Hload Hrun Hres Hmeta)
      as (tr' & nuxt2 & -> & Hledger & _).
    eexists. split; [done|]. split; [exact Hledger|]. split; [done|].
    intros key. apply defu_lookup.
  - by vm_compute.
Qed.

(** C7: a reference that is already a callable is returned as it is, with
    empty build-time metadata and without any call to a collaborator; the
    ledger entry of such an install has as [meta] the callable's own
    [getMeta()] output merged over the empty build-time metadata, which is that
    output itself, and has no [entryPath]. *)
Theorem callable_reference_loaded_directly
    (host : Host) (f : NuxtModule) (inlineOptions : JsVal) (nuxt : Nuxt) :
  loadNuxtModuleInstance host (AFun f) nuxt = ([], nuxt, Ok (f, ∅))
  /\ forall nuxt1 returned own,
       run f (receiver host nuxt) inlineOptions nuxt = (nuxt1, Ok returned) ->
       is_false (install_result returned) = false ->
       declared_meta f = Ok own ->
       installModule host (AFun f) inlineOptions nuxt =
         ([],
          push_installedModule
            {| meta := defu own ∅;
               timings := get_prop (install_result returned) "timings";
               entryPath := None |} nuxt1,
          Ok tt)
       /\ defu own ∅ = default ∅ own.
Proof.
  split; [done|]. intros nuxt1 returned own Hrun Hres Hmeta.
  destruct (installModule_writes host (AFun f) inlineOptions nuxt [] f ∅
              nuxt1 returned own eq_refl Hrun Hres Hmeta)
    as (tr' & nuxt2 & -> & _ & Hcallable).
  destruct (Hcallable eq_refl) as [-> ->].
  split; [done|]. apply defu_no_defaults.
Qed.

Lemma resolved_paths_cons (path : string) (tr : list Event) :
  resolved_paths (EvResolvePath path :: tr) = path :: resolved_paths tr.
Proof. reflexivity. Qed.

(** A candidate whose [try] block throws is followed by the rest of the
    list; only the retained error and, after a sidecar failure, the loaded
    value change. *)
Lemma candidateLoop_candidate_fails (host : Host) (path : string)
    (rest : list string) (vars : LoopVars) (nuxt : Nuxt) :
  candidate_fails host nuxt path ->
  exists tr vars1,
    candidateLoop host (path :: rest) vars nuxt
    = after (EvResolvePath path :: tr) (candidateLoop host rest vars1 nuxt)
    /\ resolved_paths tr = []
    /\ buildTimeModuleMeta vars1 = buildTimeModuleMeta vars.
Proof.
  intros (src & Hres & [[e He]|(m & e & Hm & Hside)]).
  - destruct (loadModule_outcome host src nuxt _ He) as (tr & Hload & Htr).
    rewrite candidateLoop_cons, Hres, tryCandidate_run, Hload. eauto.
  - destruct (loadModule_outcome host src nuxt _ Hm) as (tr & Hload & Htr).
    rewrite candidateLoop_cons, Hres, tryCandidate_run, Hload.
    unfold sidecar_outcome in Hside. cbn zeta.
    destruct (existsSync host _); [|discriminate].
    destruct (readFile host _) as [text|e'].
    + destruct (JSON_parse host text) as [json|e'']; [discriminate|].
      eexists _, _. split; [reflexivity|]. split; [|done].
      by rewrite resolved_paths_app, Htr.
    + eexists _, _. split; [reflexivity|]. split; [|done].
      by rewrite resolved_paths_app, Htr.
Qed.

Lemma candidateLoop_success_run (host : Host) (path : string)
    (rest : list string) (vars : LoopVars) (nuxt : Nuxt) (src : string)
    (m : JsAny) (found : option Meta) :
  resolvePath host path = Ok src ->
  outcome_of (loadModule host src nuxt) = Ok m ->
  sidecar_outcome host src = Ok found ->
  exists tr,
    candidateLoop host (path :: rest) vars nuxt =
      (EvResolvePath path :: tr, nuxt,
       Ok {| nuxtModule := m;
             buildTimeModuleMeta := default (buildTimeModuleMeta vars) found;
             error := error vars |})
    /\ resolved_paths tr = [].
Proof.
  intros Hres (tr & Hload & Htr)%loadModule_outcome Hside.
  rewrite candidateLoop_cons, Hres, tryCandidate_run, Hload.
  unfold sidecar_outcome in Hside. simpl.
  destruct (existsSync host _).
  - destruct (readFile host _) as [text|e]; [|discriminate].
    destruct (JSON_parse host text) as [json|e]; [|discriminate].
    injection Hside as <-. eexists. split; [done|].
    by rewrite resolved_paths_app, Htr.
  - injection Hside as <-. eexists. split; [done|].
    by rewrite resolved_paths_app, Htr.
Qed.

(** The loop over a list whose first candidates fail and whose next one
    succeeds: exactly those candidates are resolved, in order, and the loop
    ends with the value and metadata of the one that succeeded. *)
Lemma candidateLoop_stops_at_first_success (host : Host) (pre : list string)
    (path : string) (rest : list string) (vars : LoopVars) (nuxt : Nuxt)
    (src : string) (m : JsAny) (found : option Meta) :
  Forall (candidate_fails host nuxt) pre ->
  resolvePath host path = Ok src ->
  outcome_of (loadModule host src nuxt) = Ok m ->
  sidecar_outcome host src = Ok found ->
  exists tr err,
    candidateLoop host (pre ++ path :: rest) vars nuxt =
      (tr, nuxt,
       Ok {| nuxtModule := m;
             buildTimeModuleMeta := default (buildTimeModuleMeta vars) found;
             error := err |})
    /\ resolved_paths tr = pre ++ [path].
Proof.
  intros Hpre Hres Hload Hside. revert vars.
  induction Hpre as [|p pre Hp _ IH]; intros vars.
  - destruct (candidateLoop_success_run host path rest vars nuxt src m found
                Hres Hload Hside) as (tr & Hrun & Htr).
    change ([] ++ path :: rest) with (path :: rest). rewrite Hrun.
    eexists _, _. split; [reflexivity|].
    by rewrite resolved_paths_cons, Htr.
  - destruct (candidateLoop_candidate_fails host p (pre ++ path :: rest)
                vars nuxt Hp) as (tr & vars1 & Hstep & Htr & Hmeta).
    destruct (IH vars1) as (tr' & err & Hrest & Htr').
    change ((p :: pre) ++ path :: rest) with (p :: (pre ++ path :: rest)).
    rewrite Hstep, Hrest. unfold after. simpl.
    eexists _, _. rewrite Hmeta. split; [reflexivity|].
    by rewrite resolved_paths_cons, resolved_paths_app, Htr, Htr'.
Qed.

(** When every candidate of the list fails, every candidate is resolved. *)
Lemma candidateLoop_tries_all (host : Host) (paths : list string)
    (vars : LoopVars) (nuxt : Nuxt) :
  Forall (candidate_fails host nuxt) paths ->
  exists tr vars',
    candidateLoop host paths vars nuxt = (tr, nuxt, Ok vars')
    /\ resolved_paths tr = paths.
Proof.
  intros Hall. revert vars.
  induction Hall as [|p paths Hp _ IH]; intros vars.
  - by eexists _, _.
  - destruct (candidateLoop_candidate_fails host p paths vars nuxt Hp)
      as (tr & vars1 & Hstep & Htr & _).
    destruct (IH vars1) as (tr' & vars' & Hrest & Htr').
    rewrite Hstep, Hrest. unfold after. simpl.
    eexists _, _. split; [reflexivity|].
    by rewrite resolved_paths_cons, resolved_paths_app, Htr, Htr'.
Qed.

(** The loader resolves exactly the paths its loop resolves. *)
Lemma loadNuxtModuleInstance_resolved (host : Host) (specifier : string)
    (nuxt : Nuxt) :
  resolved_paths
    (trace_of (loadNuxtModuleInstance host (AVal (VStr specifier)) nuxt))
  = resolved_paths
      (trace_of (candidateLoop host (candidatePaths host specifier)
                   (initial_vars specifier) nuxt)).
Proof.
  rewrite loadNuxtModuleInstance_string.
  destruct (candidateLoop host _ _ nuxt) as [[tr nuxt'] [vars|e]];
    unfold trace_of; simpl; [|done].
  destruct (error vars) as [err|]; simpl.
  - destruct (any_truthy (nuxtModule vars)); simpl.
    + by destruct (nuxtModule vars).
    + rewrite resolved_paths_app. simpl. by rewrite app_nil_r.
  - by destruct (nuxtModule vars).
Qed.

(** C6 (as amended): the candidate list of a specifier [s] is
    [join(s,'nuxt')], [join(s,'module')], [s], tried in that order: a
    candidate that resolves but whose load or sidecar step throws is followed
    by the next one, and the iteration ends at the first candidate that
    resolves, loads, and whose sidecar step does not throw.  So when the
    candidates before such a candidate fail, [resolvePath] is called on
    exactly those and on it, no later candidate being resolved, and the loop
    ends with its value and metadata; when all three fail, all three are
    resolved. *)
Theorem candidates_tried_in_order (host : Host) (specifier : string) (nuxt : Nuxt) :
  candidatePaths host specifier
  = [join host specifier "nuxt"; join host specifier "module"; specifier]
  /\ resolved_paths
       (trace_of (loadNuxtModuleInstance host (AVal (VStr specifier)) nuxt))
     `prefix_of` candidatePaths host specifier
  /\ (forall path rest vars src m found,
         resolvePath host path = Ok src ->
         outcome_of (loadModule host src nuxt) = Ok m ->
         sidecar_outcome host src = Ok found ->
         exists tr,
           candidateLoop host (path :: rest) vars nuxt =
             (EvResolvePath path :: tr, nuxt,
              Ok {| nuxtModule := m;
                    buildTimeModuleMeta := default (buildTimeModuleMeta vars) found;
                    error := error vars |})
           /\ resolved_paths tr = [])
  /\ (forall pre path rest src m found,
         candidatePaths host specifier = pre ++ path :: rest ->
         Forall (candidate_fails host nuxt) pre ->
         resolvePath host path = Ok src ->
         outcome_of (loadModule host src nuxt) = Ok m ->
         sidecar_outcome host src = Ok found ->
         resolved_paths
           (trace_of (loadNuxtModuleInstance host (AVal (VStr specifier)) nuxt))
         = pre ++ [path]
         /\ exists tr err,
              candidateLoop host (candidatePaths host specifier)
                (initial_vars specifier) nuxt =
                (tr, nuxt,
                 Ok {| nuxtModule := m;
                       buildTimeModuleMeta := default ∅ found;
                       error := err |}))
  /\ (Forall (candidate_fails host nuxt) (candidatePaths host specifier) ->
      resolved_paths
        (trace_of (loadNuxtModuleInstance host (AVal (VStr specifier)) nuxt))
      = candidatePaths host specifier).
Proof.
  split; [done|]. split; [|split; [|split]].
  - rewrite loadNuxtModuleInstance_resolved. apply candidateLoop_resolved.
  - intros path rest vars src m found Hres Hload Hside.
    by apply (candidateLoop_success_run host path rest vars nuxt src).
  - intros pre path rest src m found Hpaths Hpre Hres Hload Hside.
    destruct (candidateLoop_stops_at_first_success host pre path rest
                (initial_vars specifier) nuxt src m found Hpre Hres Hload Hside)
      as (tr & err & Hloop & Htr).
    rewrite <- Hpaths in Hloop.
    rewrite loadNuxtModuleInstance_resolved, Hloop. split; [done|].
    by exists tr, err.
  - intros Hall.
    destruct (candidateLoop_tries_all host (candidatePaths host specifier)
                (initial_vars specifier) nuxt Hall) as (tr & vars' & Hloop & Htr).
    by rewrite loadNuxtModuleInstance_resolved, Hloop.
Qed.

(** C3 (as amended): [resolvePath] is awaited before the [try] opens, so a
    failure of the resolver on a candidate ends the loop with that error; the
    remaining candidates are not tried and [loadNuxtModuleInstance] throws the
    resolver's error. *)
Theorem resolvePath_failure_propagates
    (host : Host) (path : string) (rest : list string) (vars : LoopVars)
    (nuxt : Nuxt) (e : JsError) :
  resolvePath host path = Throw e ->
  candidateLoop host (path :: rest) vars nuxt = ([EvResolvePath path], nuxt, Throw e)
  /\ forall specifier,
       path = join host specifier "nuxt" ->
       loadNuxtModuleInstance host (AVal (VStr specifier)) nuxt
       = ([EvResolvePath path], nuxt, Throw e).
Proof.
  intros Hres. split.
  - by rewrite candidateLoop_cons, Hres.
  - intros specifier ->. rewrite loadNuxtModuleInstance_string.
    unfold candidatePaths. by rewrite candidateLoop_cons, Hres.
Qed.

(** C2 (as amended): when a candidate loads and the [module.json] next to it
    exists but fails to parse, the parse error is caught by the candidate's
    [catch]: it is retained in [error], the loaded value stays in
    [nuxtModule], and the loop goes on with the next candidate. *)
Theorem sidecar_parse_error_retained
    (host : Host) (path : string) (rest : list string) (vars : LoopVars)
    (nuxt : Nuxt) (src : string) (tr : list Event) (m : JsAny)
    (text : string) (e : JsError) :
  resolvePath host path = Ok src ->
  loadModule host src nuxt = (tr, nuxt, Ok m) ->
  existsSync host (join host (dirname host src) "module.json") = true ->
  readFile host (join host (dirname host src) "module.json") = Ok text ->
  JSON_parse host text = Throw e ->
  candidateLoop host (path :: rest) vars nuxt =
    after (EvResolvePath path :: tr
           ++ [EvExistsSync (join host (dirname host src) "module.json");
               EvReadFile (join host (dirname host src) "module.json");
               EvJsonParse text])
      (candidateLoop host rest
         {| nuxtModule := m;
            buildTimeModuleMeta := buildTimeModuleMeta vars;
            error := Some e |} nuxt).
Proof.
  intros Hres Hload Hexists Hread Hparse.
  rewrite candidateLoop_cons, Hres, tryCandidate_run, Hload. simpl.
  by rewrite Hexists, Hread, Hparse.
Qed.

(** C1: for the specifier [my-mod], none of whose candidates can be loaded,
    the loop retains the error of the last attempt, but
    [loadNuxtModuleInstance] throws a [TypeError] about the specifier and logs
    nothing: [nuxtModule] still holds the non-empty specifier, so the test
    [!nuxtModule && error] fails. *)
Theorem exhausted_specifier_throws_TypeError :
  (exists tr,
      candidateLoop Sample.host_missing
        (candidatePaths Sample.host_missing "my-mod")
        (initial_vars "my-mod") Sample.empty_nuxt
      = (tr, Sample.empty_nuxt,
         Ok {| nuxtModule := AVal (VStr "my-mod");
               buildTimeModuleMeta := ∅;
               error := Some (Thrown "Cannot find module 'my-mod'") |}))
  /\ loadNuxtModuleInstance Sample.host_missing (AVal (VStr "my-mod"))
       Sample.empty_nuxt
     = ([EvResolvePath "my-mod/nuxt";
         EvImportModule "my-mod/nuxt" []; EvRequireModule "my-mod/nuxt" [];
         EvResolvePath "my-mod/module";
         EvImportModule "my-mod/module" []; EvRequireModule "my-mod/module" [];
         EvResolvePath "my-mod";
         EvImportModule "my-mod" []; EvRequireModule "my-mod" []],
        Sample.empty_nuxt,
        Throw (TypeError "Nuxt module should be a function: my-mod")).
Proof. split; [eexists|]; vm_compute; reflexivity. Qed.

(** The empty specifier is the one for which the retained error is thrown
    and logged. *)
Example exhausted_empty_specifier :
  loadNuxtModuleInstance Sample.host_missing (AVal (VStr "")) Sample.empty_nuxt
  = ([EvResolvePath "nuxt";
      EvImportModule "nuxt" []; EvRequireModule "nuxt" [];
      EvResolvePath "module";
      EvImportModule "module" []; EvRequireModule "module" [];
      EvResolvePath "";
      EvImportModule "" []; EvRequireModule "" [];
      EvLoggerError "Error while requiring module ``: Cannot find module ''"],
     Sample.empty_nuxt,
     Throw (Thrown "Cannot find module ''")).
Proof. vm_compute. reflexivity. Qed.

(** The end-to-end example of the specification. *)
Example install_my_mod :
  exists tr nuxt',
    installModule (Sample.host_sidecar Sample.setup_ok) (AVal (VStr "my-mod"))
      VUndefined Sample.empty_nuxt = (tr, nuxt', Ok tt)
    /\ ledger nuxt'
       = [{| meta := {[ "version" := VStr "1.0" ]};
             timings := VObj {[ "setup" := VNum 5 ]};
             entryPath := Some "my-mod" |}]
    /\ build_transpile nuxt' = ["my-mod"]
    /\ modulesDir nuxt' = [].
Proof. eexists _, _. split; [vm_compute; reflexivity|]. by vm_compute. Qed.

(** ** The properties at concrete environments *)

Import Sample.

(** Installing a file inside [node_modules]: the package directory goes to
    the transpile list (by its name) and to the module search paths. *)
Example install_vendored_file :
  exists tr nuxt',
    installModule host_package (AVal (VStr "/proj/node_modules/foo/index.js"))
      VUndefined project_nuxt = (tr, nuxt', Ok tt)
    /\ build_transpile nuxt' = ["foo"]
    /\ modulesDir nuxt' = ["/proj/node_modules"; "/proj/node_modules/foo"]
    /\ length (ledger nuxt') = 1.
Proof. eexists _, _. split; [vm_compute; reflexivity|]. by vm_compute. Qed.

(** Installing a file of the layer's own [modules] directory: that directory
    is a local layer module directory and is not added to the search paths. *)
Example install_local_file :
  exists tr nuxt',
    installModule host_package (AVal (VStr "/proj/modules/local.js"))
      VUndefined project_nuxt = (tr, nuxt', Ok tt)
    /\ build_transpile nuxt' = ["/proj/modules"]
    /\ modulesDir nuxt' = ["/proj/node_modules"]
    /\ length (ledger nuxt') = 1.
Proof. eexists _, _. split; [vm_compute; reflexivity|]. by vm_compute. Qed.

(** A resolver failure on the first candidate ends the load, although the
    second candidate could be loaded. *)
Lemma resolver_failure_is_fatal :
  resolvePath host_resolver_fails "m/nuxt" = Throw (Thrown "resolve failed")
  /\ outcome_of (loadModule host_resolver_fails "m/module" empty_nuxt)
     = Ok (AFun setup_ok)
  /\ loadNuxtModuleInstance host_resolver_fails (AVal (VStr "m")) empty_nuxt
     = ([EvResolvePath "m/nuxt"], empty_nuxt, Throw (Thrown "resolve failed")).
Proof. repeat split; vm_compute; reflexivity. Qed.

Lemma resolvePath_failure_propagates_witness :
  candidateLoop host_resolver_fails ["m/nuxt"; "m/module"; "m"]
    (initial_vars "m") empty_nuxt
  = ([EvResolvePath "m/nuxt"], empty_nuxt, Throw (Thrown "resolve failed")).
Proof.
  apply (proj1 (resolvePath_failure_propagates host_resolver_fails "m/nuxt"
                  ["m/module"; "m"] (initial_vars "m") empty_nuxt
                  (Thrown "resolve failed") eq_refl)).
Defined.

(** A [module.json] that does not parse next to the first candidate: the
    error never reaches the caller, the other two candidates are tried, and
    the load succeeds with the module of the first candidate and no
    build-time metadata. *)
Lemma sidecar_parse_error_swallowed :
  JSON_parse host_bad_sidecar "{ not json"
  = Throw (Thrown "SyntaxError: Unexpected token")
  /\ loadNuxtModuleInstance host_bad_sidecar (AVal (VStr "m")) empty_nuxt
     = ([EvResolvePath "m/nuxt"; EvImportModule "m/nuxt" [];
         EvExistsSync "m/module.json"; EvReadFile "m/module.json";
         EvJsonParse "{ not json";
         EvResolvePath "m/module";
         EvImportModule "m/module" []; EvRequireModule "m/module" [];
         EvResolvePath "m"; EvImportModule "m" []; EvRequireModule "m" []],
        empty_nuxt, Ok (setup_ok, ∅)).
Proof. split; vm_compute; reflexivity. Qed.

Lemma sidecar_parse_error_retained_witness :
  candidateLoop host_bad_sidecar ["m/nuxt"; "m/module"; "m"]
    (initial_vars "m") empty_nuxt
  = after [EvResolvePath "m/nuxt"; EvImportModule "m/nuxt" [];
           EvExistsSync "m/module.json"; EvReadFile "m/module.json";
           EvJsonParse "{ not json"]
      (candidateLoop host_bad_sidecar ["m/module"; "m"]
         {| nuxtModule := AFun setup_ok;
            buildTimeModuleMeta := ∅;
            error := Some (Thrown "SyntaxError: Unexpected token") |}
         empty_nuxt).
Proof.
  apply (sidecar_parse_error_retained host_bad_sidecar "m/nuxt" ["m/module"; "m"]
           (initial_vars "m") empty_nuxt "m/nuxt" [EvImportModule "m/nuxt" []]
           (AFun setup_ok) "{ not json" (Thrown "SyntaxError: Unexpected token"));
    reflexivity.
Defined.

(** The first candidate loads, and yet the two later candidates are
    resolved. *)
Lemma loaded_candidate_does_not_end_loop :
  loadModule host_bad_sidecar "m/nuxt" empty_nuxt
  = ([EvImportModule "m/nuxt" []], empty_nuxt, Ok (AFun setup_ok))
  /\ resolved_paths
       (trace_of (loadNuxtModuleInstance host_bad_sidecar (AVal (VStr "m"))
                    empty_nuxt))
     = ["m/nuxt"; "m/module"; "m"].
Proof. split; vm_compute; reflexivity. Qed.

Lemma candidates_tried_in_order_witness :
  resolved_paths
    (trace_of (loadNuxtModuleInstance (host_sidecar setup_ok)
                 (AVal (VStr "my-mod")) empty_nuxt))
  = ["my-mod/nuxt"] ++ ["my-mod/module"]
  /\ exists tr err,
       candidateLoop (host_sidecar setup_ok)
         (candidatePaths (host_sidecar setup_ok) "my-mod")
         (initial_vars "my-mod") empty_nuxt =
         (tr, empty_nuxt,
          Ok {| nuxtModule := AFun setup_ok;
                buildTimeModuleMeta :=
                  default ∅ (Some {[ "version" := VStr "1.0" ]});
                error := err |}).
Proof.
  refine (proj1 (proj2 (proj2 (proj2
            (candidates_tried_in_order (host_sidecar setup_ok) "my-mod"
               empty_nuxt))))
            ["my-mod/nuxt"] "my-mod/module" ["my-mod"] "my-mod/module"
            (AFun setup_ok) (Some {[ "version" := VStr "1.0" ]})
            _ _ _ _ _); try (vm_compute; reflexivity).
  constructor; [|constructor].
  exists "my-mod/nuxt". split; [vm_compute; reflexivity|].
  left. exists (Thrown "Cannot find module 'my-mod/nuxt'").
  vm_compute; reflexivity.
Defined.

(** The path of an existing regular file is first reduced to its directory,
    so the file name is not part of the result. *)
Lemma transpile_path_of_existing_file :
  outcome_of (getDirectory host_package "/proj/node_modules/foo/index.js"
                empty_nuxt)
  = Ok "/proj/node_modules/foo"
  /\ outcome_of (normalizeModuleTranspilePath host_package
                   "/proj/node_modules/foo/index.js" empty_nuxt)
     = Ok "foo"
  /\ outcome_of (normalizeModuleTranspilePath host_package
                   "/proj/node_modules/foo/index.js" empty_nuxt)
     <> Ok "foo/index.js".
Proof. repeat split; try (vm_compute; reflexivity). vm_compute. discriminate. Qed.

Lemma normalizeModuleTranspilePath_fragment_witness :
  outcome_of (normalizeModuleTranspilePath host_missing
                "/proj/node_modules/foo/index.js" empty_nuxt)
  = Ok "foo/index.js"
  /\ outcome_of (normalizeModuleTranspilePath host_package
                   "/proj/node_modules/foo/index.js" empty_nuxt)
     = Ok "foo".
Proof.
  destruct normalizeModuleTranspilePath_fragment as (_ & Hsame & Hdir).
  split; [apply Hsame | apply Hdir]; reflexivity.
Defined.

Lemma nullish_import_falls_back_to_require_witness :
  importModule host_nullish_import "m/nuxt" [] = Ok (AVal VUndefined)
  /\ loadModule host_nullish_import "m/nuxt" empty_nuxt
     = ([EvImportModule "m/nuxt" []; EvRequireModule "m/nuxt" []],
        empty_nuxt, Ok (AFun setup_ok)).
Proof.
  split; [reflexivity|].
  apply (proj1 (nullish_import_falls_back_to_require host_nullish_import
                  "m/nuxt" (initial_vars "m") empty_nuxt eq_refl)).
Defined.

Lemma installModule_false_aborts_witness :
  exists tr,
    installModule (host_sidecar setup_abort) (AVal (VStr "my-mod")) VUndefined
      empty_nuxt
    = (tr, empty_nuxt, Ok tt).
Proof.
  eexists.
  refine (proj1 (installModule_false_aborts (host_sidecar setup_abort)
                   (AVal (VStr "my-mod")) VUndefined empty_nuxt _ _ _ _ _ _));
    vm_compute; reflexivity.
Defined.

Lemma installModule_meta_merge_witness :
  exists entry,
    outcome_of (installModule (host_sidecar setup_declaring)
                  (AVal (VStr "my-mod")) VUndefined empty_nuxt) = Ok tt
    /\ ledger (context_of (installModule (host_sidecar setup_declaring)
                             (AVal (VStr "my-mod")) VUndefined empty_nuxt))
       = ledger empty_nuxt ++ [entry]
    /\ meta entry
       = defu (Some {[ "b" := VNum 3 ]}) {[ "version" := VStr "1.0" ]}
    /\ forall key,
         meta entry !! key =
           match default ∅ (Some ({[ "b" := VNum 3 ]} : Meta)) !! key with
           | Some v => Some v
           | None => ({[ "version" := VStr "1.0" ]} : Meta) !! key
           end.
Proof.
  refine (proj1 (installModule_meta_merge (host_sidecar setup_declaring)
                   (AVal (VStr "my-mod")) VUndefined empty_nuxt
                   [EvResolvePath "my-mod/nuxt";
                    EvImportModule "my-mod/nuxt" [];
                    EvRequireModule "my-mod/nuxt" [];
                    EvResolvePath "my-mod/module";
                    EvImportModule "my-mod/module" [];
                    EvRequireModule "my-mod/module" [];
                    EvExistsSync "my-mod/module.json";
                    EvReadFile "my-mod/module.json";
                    EvJsonParse "{ version }"]
                   setup_declaring {[ "version" := VStr "1.0" ]} empty_nuxt
                   VUndefined (Some {[ "b" := VNum 3 ]}) _ _ _ _));
    vm_compute; reflexivity.
Defined.

Lemma callable_reference_loaded_directly_witness :
  installModule host_missing (AFun setup_declaring) VUndefined empty_nuxt
  = ([],
     push_installedModule
       {| meta := defu (Some {[ "b" := VNum 3 ]}) ∅;
          timings := VUndefined;
          entryPath := None |} empty_nuxt,
     Ok tt).
Proof.
  exact (proj1 (proj2 (callable_reference_loaded_directly host_missing
                         setup_declaring VUndefined empty_nuxt)
                  empty_nuxt VUndefined (Some {[ "b" := VNum 3 ]})
                  eq_refl eq_refl eq_refl)).
Defined.

(** ** Further properties of the engine *)

(** *** Vendored paths and local layer directories *)

(** [NODE_MODULES_RE.test(s)] holds exactly when [s] contains
    [node_modules] between two separators, each a slash or a backslash. *)
Theorem NODE_MODULES_RE_test_matches (s : string) :
  NODE_MODULES_RE_test s = true <->
  exists a c d b,
    is_slash c = true /\ is_slash d = true
    /\ s = a +:+ String c ("node_modules" +:+ String d b).
Proof.
  split.
  - induction s as [|x s IH]; [discriminate|]. cbn [NODE_MODULES_RE_test].
    intros [Hhead|Htail]%orb_true_iff.
    + apply andb_true_iff in Hhead as [Hx Hrest].
      destruct (Str.strip_prefix "node_modules" s) as [[|d b]|] eqn:E;
        try discriminate.
      apply StrFacts.strip_prefix_spec in E.
      exists "", x, d, b. by rewrite StrFacts.app_nil, E.
    + destruct (IH Htail) as (a & c & d & b & Hc & Hd & ->).
      by exists (String x a), c, d, b.
  - intros (a & c & d & b & Hc & Hd & ->).
    induction a as [|x a IH].
    + rewrite StrFacts.app_nil. cbn [NODE_MODULES_RE_test].
      assert (Str.strip_prefix "node_modules" ("node_modules" +:+ String d b)
              = Some (String d b)) as -> by by apply StrFacts.strip_prefix_spec.
      by rewrite Hc, Hd.
    + rewrite StrFacts.app_cons. cbn [NODE_MODULES_RE_test].
      rewrite IH. apply orb_true_r.
Qed.

Lemma localLayerModuleDirs_from (host : Host) (layers : list Layer)
    (dirs : gset string) (d : string) :
  d ∈ foldl (fun dirs l =>
               let srcDir := or_string (config_srcDir l) (cwd l) in
               if NODE_MODULES_RE_test srcDir then dirs
               else dirs ∪ {[ resolve host srcDir
                                (or_string (config_dir_modules l) "modules") ]})
            dirs layers
  <-> d ∈ dirs
      \/ exists l,
           l ∈ layers
           /\ NODE_MODULES_RE_test (or_string (config_srcDir l) (cwd l)) = false
           /\ d = resolve host (or_string (config_srcDir l) (cwd l))
                    (or_string (config_dir_modules l) "modules").
Proof.
  revert dirs. induction layers as [|l layers IH]; intros dirs; simpl.
  - split; [by left|]. intros [?|(l & Hl & _)]; [done|]. by apply elem_of_nil in Hl.
  - rewrite IH. clear IH.
    destruct (NODE_MODULES_RE_test (or_string (config_srcDir l) (cwd l))) eqn:E.
    + split.
      * intros [?|(l' & Hl' & ?)]; [by left|]. right. exists l'.
        split; [by right|done].
      * intros [?|(l' & Hl' & Ht & ?)]; [by left|].
        apply elem_of_cons in Hl' as [->|Hl']; [congruence|].
        right. by exists l'.
    + rewrite elem_of_union, elem_of_singleton. split.
      * intros [[?| ->]|(l' & Hl' & ?)]; [by left| |].
        -- right. exists l. split; [left|done].
        -- right. exists l'. split; [by right|done].
      * intros [?|(l' & Hl' & Ht & ->)]; [by left; left|].
        apply elem_of_cons in Hl' as [->|Hl']; [by left; right|].
        right. by exists l'.
Qed.

(** A directory is a local layer module directory exactly when it is the
    [modules] directory (or the configured one) of a layer whose source
    directory is not vendored; vendored layers contribute nothing. *)
Theorem localLayerModuleDirs_spec (host : Host) (layers : list Layer) (d : string) :
  d ∈ localLayerModuleDirs host layers
  <-> exists l,
        l ∈ layers
        /\ NODE_MODULES_RE_test (or_string (config_srcDir l) (cwd l)) = false
        /\ d = resolve host (or_string (config_srcDir l) (cwd l))
                 (or_string (config_dir_modules l) "modules").
Proof.
  unfold localLayerModuleDirs. rewrite localLayerModuleDirs_from.
  split; [|by right]. intros [Hempty|?]; [|done]. by apply elem_of_empty in Hempty.
Qed.

(** *** [installModule], case by case *)

(** [installModule] in terms of the outcome of its steps: the load, the call,
    the abort test, the bookkeeping for a string specifier, [getMeta]. *)
Lemma installModule_run (host : Host) (reference : JsAny) (inlineOptions : JsVal)
    (nuxt : Nuxt) :
  installModule host reference inlineOptions nuxt =
    match loadNuxtModuleInstance host reference nuxt with
    | (tr, nuxt0, Throw e) => (tr, nuxt0, Throw e)
    | (tr, nuxt0, Ok (f, build)) =>
        match run f (receiver host nuxt0) inlineOptions nuxt0 with
        | (nuxt1, Throw e) => (tr, nuxt1, Throw e)
        | (nuxt1, Ok returned) =>
            if is_false (install_result returned) then (tr, nuxt1, Ok tt)
            else
              let booked :=
                match specifier_of reference with
                | Some s =>
                    let d := if isAbsolute host s
                                && match lstatSync host s with
                                   | Ok k => isFile k
                                   | Throw _ => false
                                   end
                             then dirname host s else s in
                    let nuxt2 :=
                      push_transpile
                        (default "" (Str.pop (Str.split "node_modules/" d)))
                        nuxt1 in
                    (if isAbsolute host s
                     then [EvLstatSync s; EvLstatSync s] else [],
                     if negb (String.eqb d s)
                        && negb (bool_decide
                                   (d ∈ localLayerModuleDirs host (_layers nuxt0)))
                     then push_modulesDir d nuxt2 else nuxt2)
                | None => ([], nuxt1)
                end in
              match declared_meta f with
              | Throw e =>
                  (tr ++ booked.1, ensure_installedModules booked.2, Throw e)
              | Ok own =>
                  (tr ++ booked.1,
                   push_installedModule
                     {| meta := defu own build;
                        timings := get_prop (install_result returned) "timings";
                        entryPath := option_map (resolveAlias host)
                                       (specifier_of reference) |}
                     booked.2,
                   Ok tt)
              end
        end
    end.
Proof.
  unfold installModule. unfold bind at 1.
  destruct (loadNuxtModuleInstance host reference nuxt)
    as [[tr nuxt0] [[f build]|e]]; [|done].
  unfold bind at 1, get. unfold bind at 1, invoke, receiver.
  destruct (run f _ inlineOptions nuxt0) as [nuxt1 [returned|e]];
    [|simpl; by rewrite !app_nil_r].
  unfold install_result.
  destruct (is_false (if nullish returned then VObj ∅ else returned)) eqn:Hres;
    [simpl; by rewrite !app_nil_r|].
  unfold declared_meta.
  destruct (specifier_of reference) as [s|] eqn:Hspec.
  - unfold bind at 1. unfold bind at 1.
    destruct (normalizeModuleTranspilePath_run host s nuxt1)
      as (trd & d & Hdir & ->).
    unfold bind at 1, modify at 1. unfold bind at 1.
    rewrite getDirectory_run in *. injection Hdir as <- <-.
    set (d := if isAbsolute host s && _ then _ else _).
    set (t := default "" _).
    destruct (negb (d =? s)%string
              && negb (bool_decide (d ∈ localLayerModuleDirs host (_layers nuxt0))));
      run_monad;
      destruct (getMeta f) as [[m|e]|]; simpl;
      destruct (isAbsolute host s); simpl; by rewrite ?app_nil_r.
  - run_monad.
    destruct (getMeta f) as [[m|e]|]; simpl; by rewrite ?app_nil_r.
Qed.

(** A load that fails makes the install fail with the same error, after the
    same calls, and leaves the build context untouched: the module is never
    invoked. *)
Theorem installModule_load_failure (host : Host) (reference : JsAny)
    (inlineOptions : JsVal) (nuxt : Nuxt) (e : JsError) :
  outcome_of (loadNuxtModuleInstance host reference nuxt) = Throw e ->
  installModule host reference inlineOptions nuxt
  = (trace_of (loadNuxtModuleInstance host reference nuxt), nuxt, Throw e).
Proof.
  intros Hload. rewrite installModule_run.
  pose proof (loadNuxtModuleInstance_context host reference nuxt) as Hctx.
  destruct (loadNuxtModuleInstance host reference nuxt) as [[tr nuxt0] r].
  unfold outcome_of, context_of, trace_of in *; simpl in *. by subst.
Qed.

(** An exception of the module callable propagates as it is; the installer
    records nothing and makes no further call. *)
Theorem installModule_callable_throws (host : Host) (reference : JsAny)
    (inlineOptions : JsVal) (nuxt : Nuxt) (tr : list Event) (f : NuxtModule)
    (build : Meta) (nuxt1 : Nuxt) (e : JsError) :
  loadNuxtModuleInstance host reference nuxt = (tr, nuxt, Ok (f, build)) ->
  run f (receiver host nuxt) inlineOptions nuxt = (nuxt1, Throw e) ->
  installModule host reference inlineOptions nuxt = (tr, nuxt1, Throw e).
Proof. intros Hload Hrun. by rewrite installModule_run, Hload, Hrun. Qed.

(** Whatever the callable returns or throws, the installer only appends: the
    three lists of the context the callable left are initial segments of the
    final ones, each grows by at most one element, and the layers and the
    module container are not touched. *)
Theorem installModule_only_appends (host : Host) (reference : JsAny)
    (inlineOptions : JsVal) (nuxt : Nuxt) (tr : list Event) (f : NuxtModule)
    (build : Meta) (nuxt1 : Nuxt) (r : Result JsVal) :
  loadNuxtModuleInstance host reference nuxt = (tr, nuxt, Ok (f, build)) ->
  run f (receiver host nuxt) inlineOptions nuxt = (nuxt1, r) ->
  let final := context_of (installModule host reference inlineOptions nuxt) in
  (ledger nuxt1 `prefix_of` ledger final
   /\ length (ledger final) <= S (length (ledger nuxt1)))
  /\ (build_transpile nuxt1 `prefix_of` build_transpile final
      /\ length (build_transpile final) <= S (length (build_transpile nuxt1)))
  /\ (modulesDir nuxt1 `prefix_of` modulesDir final
      /\ length (modulesDir final) <= S (length (modulesDir nuxt1)))
  /\ _layers final = _layers nuxt1
  /\ moduleContainer final = moduleContainer nuxt1.
Proof.
  intros Hload Hrun final. subst final.
  rewrite installModule_run, Hload, Hrun.
  assert (forall A (l : list A) x,
             l `prefix_of` l ++ [x] /\ length (l ++ [x]) <= S (length l)) as Hpush.
  { intros A l x. split; [by apply prefix_app_r|]. rewrite length_app. simpl. lia. }
  assert (forall A (l : list A),
             l `prefix_of` l /\ length l <= S (length l)) as Hsame.
  { intros A l. split; [done|lia]. }
  destruct r as [returned|e]; [|by unfold context_of; simpl; auto].
  destruct (is_false (install_result returned));
    [by unfold context_of; simpl; auto|].
  unfold context_of, ledger.
  destruct (specifier_of reference) as [s|]; simpl.
  - destruct (negb _ && negb _); destruct (declared_meta f); simpl; auto 10.
  - destruct (declared_meta f); simpl; auto 10.
Qed.

(** Only the value [false] aborts an install.  After any other return
    value, the falsy ones and [undefined] included, the install goes on: when
    [getMeta] is absent or returns, a ledger entry is appended whose
    [timings] is the [timings] property of the returned object, undefined
    when the callable returned anything else; when [getMeta] throws, that
    error is thrown, [_installedModules] having been defined. *)
Theorem installModule_only_false_aborts (host : Host) (reference : JsAny)
    (inlineOptions : JsVal) (nuxt : Nuxt) (tr : list Event) (f : NuxtModule)
    (build : Meta) (nuxt1 : Nuxt) (returned : JsVal) :
  loadNuxtModuleInstance host reference nuxt = (tr, nuxt, Ok (f, build)) ->
  run f (receiver host nuxt) inlineOptions nuxt = (nuxt1, Ok returned) ->
  returned <> VBool false ->
  let out := installModule host reference inlineOptions nuxt in
  match declared_meta f with
  | Ok own =>
      exists entry,
        outcome_of out = Ok tt
        /\ ledger (context_of out) = ledger nuxt1 ++ [entry]
        /\ timings entry =
             match returned with
             | VObj props => default VUndefined (props !! "timings")
             | _ => VUndefined
             end
  | Throw e =>
      outcome_of out = Throw e
      /\ _installedModules (context_of out) = Some (ledger nuxt1)
  end.
Proof.
  intros Hload Hrun Hnot out. subst out.
  assert (is_false (install_result returned) = false) as Hres.
  { destruct returned as [| |[]| | |]; done. }
  destruct (declared_meta f) as [own|e] eqn:Hmeta.
  - destruct (installModule_writes host _ _ _ _ _ _ _ _ _ Hload Hrun Hres Hmeta)
      as (tr' & nuxt2 & -> & Hledger & _).
    eexists. split; [done|]. split; [exact Hledger|].
    simpl. by destruct returned.
  - rewrite installModule_run, Hload, Hrun, Hres, Hmeta.
    unfold outcome_of, context_of. simpl. split; [done|].
    destruct (specifier_of reference) as [s|]; simpl; [|done].
    by destruct (negb _ && negb _).
Qed.

(** The [entryPath] of the entry written for a string specifier is
    [resolveAlias] of the specifier as given, whichever candidate was loaded;
    a callable reference leaves it undefined. *)
Theorem installModule_entryPath (host : Host) (reference : JsAny)
    (inlineOptions : JsVal) (nuxt : Nuxt) (tr : list Event) (f : NuxtModule)
    (build : Meta) (nuxt1 : Nuxt) (returned : JsVal) (own : option Meta) :
  loadNuxtModuleInstance host reference nuxt = (tr, nuxt, Ok (f, build)) ->
  run f (receiver host nuxt) inlineOptions nuxt = (nuxt1, Ok returned) ->
  is_false (install_result returned) = false ->
  declared_meta f = Ok own ->
  exists entry,
    last (ledger (context_of (installModule host reference inlineOptions nuxt)))
    = Some entry
    /\ entryPath entry =
         match reference with
         | AVal (VStr specifier) => Some (resolveAlias host specifier)
         | _ => None
         end.
Proof.
  intros Hload Hrun Hres Hmeta.
  destruct (installModule_writes host _ _ _ _ _ _ _ _ _ Hload Hrun Hres Hmeta)
    as (tr' & nuxt2 & -> & Hledger & _).
  eexists. unfold context_of. simpl. rewrite Hledger, last_snoc.
  split; [done|]. simpl. by destruct reference as [|[]].
Qed.

(** When [getMeta] throws, the install fails with that error after the
    bookkeeping has been done and is not undone: no entry is written, but
    [_installedModules] is now defined and, for a string specifier, the
    transpile list has its new element. *)
Theorem installModule_getMeta_failure (host : Host) (reference : JsAny)
    (inlineOptions : JsVal) (nuxt : Nuxt) (tr : list Event) (f : NuxtModule)
    (build : Meta) (nuxt1 : Nuxt) (returned : JsVal) (e : JsError) :
  loadNuxtModuleInstance host reference nuxt = (tr, nuxt, Ok (f, build)) ->
  run f (receiver host nuxt) inlineOptions nuxt = (nuxt1, Ok returned) ->
  is_false (install_result returned) = false ->
  declared_meta f = Throw e ->
  let final := context_of (installModule host reference inlineOptions nuxt) in
  outcome_of (installModule host reference inlineOptions nuxt) = Throw e
  /\ _installedModules final = Some (ledger nuxt1)
  /\ forall specifier transpilePath,
       reference = AVal (VStr specifier) ->
       outcome_of (normalizeModuleTranspilePath host specifier nuxt1)
       = Ok transpilePath ->
       build_transpile final = build_transpile nuxt1 ++ [transpilePath].
Proof.
  intros Hload Hrun Hres Hmeta final. subst final.
  rewrite installModule_run, Hload, Hrun, Hres, Hmeta.
  unfold outcome_of, context_of. simpl. split; [done|]. split.
  - destruct (specifier_of reference) as [s|]; simpl; [|done].
    by destruct (negb _ && negb _).
  - intros specifier transpilePath -> Hpath. simpl.
    destruct (normalizeModuleTranspilePath_run host specifier nuxt1)
      as (trd & d & Hdir & Hnorm).
    rewrite Hnorm in Hpath. rewrite getDirectory_run in Hdir.
    unfold outcome_of in Hpath. simpl in Hpath.
    injection Hdir as _ <-. injection Hpath as <-.
    by destruct (negb _ && negb _).
Qed.

(** The bookkeeping of a successful install of a string specifier: the
    transpile list gains [normalizeModuleTranspilePath(specifier)]; the module
    search paths gain [getDirectory(specifier)] exactly when it differs from
    the specifier and is not a local layer module directory of the layers as
    they were before the call; and beyond the loader's calls the only calls
    are two [lstatSync] probes of an absolute specifier. *)
Theorem installModule_string_bookkeeping (host : Host) (specifier : string)
    (inlineOptions : JsVal) (nuxt : Nuxt) (tr : list Event) (f : NuxtModule)
    (build : Meta) (nuxt1 : Nuxt) (returned : JsVal) (own : option Meta)
    (directory transpilePath : string) :
  loadNuxtModuleInstance host (AVal (VStr specifier)) nuxt
  = (tr, nuxt, Ok (f, build)) ->
  run f (receiver host nuxt) inlineOptions nuxt = (nuxt1, Ok returned) ->
  is_false (install_result returned) = false ->
  declared_meta f = Ok own ->
  outcome_of (getDirectory host specifier nuxt1) = Ok directory ->
  outcome_of (normalizeModuleTranspilePath host specifier nuxt1)
  = Ok transpilePath ->
  let out := installModule host (AVal (VStr specifier)) inlineOptions nuxt in
  outcome_of out = Ok tt
  /\ trace_of out
     = tr ++ (if isAbsolute host specifier
              then [EvLstatSync specifier; EvLstatSync specifier] else [])
  /\ build_transpile (context_of out) = build_transpile nuxt1 ++ [transpilePath]
  /\ modulesDir (context_of out)
     = modulesDir nuxt1
       ++ (if negb (String.eqb directory specifier)
              && negb (bool_decide
                         (directory ∈ localLayerModuleDirs host (_layers nuxt)))
           then [directory] else []).
Proof.
  intros Hload Hrun Hres Hmeta Hdir Hpath out. subst out.
  rewrite installModule_run, Hload, Hrun, Hres, Hmeta.
  destruct (normalizeModuleTranspilePath_run host specifier nuxt1)
    as (trd & d & Hd & Hnorm).
  rewrite Hnorm in Hpath. rewrite Hd in Hdir. rewrite getDirectory_run in Hd.
  unfold outcome_of, trace_of, context_of in *. simpl in *.
  injection Hd as _ <-. injection Hdir as <-. injection Hpath as <-.
  repeat split; try done.
  all: destruct (negb _ && negb _); simpl; by rewrite ?app_nil_r.
Qed.


(** *** [loadNuxtModuleInstance], from the loop to its result *)

(** Loading only reads the build context: whatever the reference and
    whatever the outcome, the context is the one the loader was given. *)
Theorem loadNuxtModuleInstance_reads_only (host : Host) (reference : JsAny)
    (nuxt : Nuxt) :
  context_of (loadNuxtModuleInstance host reference nuxt) = nuxt.
Proof. apply loadNuxtModuleInstance_context. Qed.

(** A candidate that resolves, loads, and whose sidecar step does not throw
    ends the loop with its value and its metadata. *)
Lemma candidateLoop_success (host : Host) (path : string) (rest : list string)
    (vars : LoopVars) (nuxt : Nuxt) (src : string) (m : JsAny)
    (found : option Meta) :
  resolvePath host path = Ok src ->
  outcome_of (loadModule host src nuxt) = Ok m ->
  sidecar_outcome host src = Ok found ->
  outcome_of (candidateLoop host (path :: rest) vars nuxt)
  = Ok {| nuxtModule := m;
          buildTimeModuleMeta := default (buildTimeModuleMeta vars) found;
          error := error vars |}.
Proof.
  intros Hres (tr & Hload & _)%loadModule_outcome Hside.
  rewrite candidateLoop_cons, Hres, tryCandidate_run, Hload.
  unfold sidecar_outcome in Hside. simpl.
  destruct (existsSync host _).
  - destruct (readFile host _) as [text|e]; [|discriminate].
    destruct (JSON_parse host text) as [json|e]; [|discriminate].
    by injection Hside as <-.
  - by injection Hside as <-.
Qed.

Lemma candidateLoop_first_success (host : Host) (pre : list string)
    (path : string) (rest : list string) (vars : LoopVars) (nuxt : Nuxt)
    (src : string) (m : JsAny) (found : option Meta) :
  Forall (fun p => exists src' e,
              resolvePath host p = Ok src'
              /\ outcome_of (loadModule host src' nuxt) = Throw e) pre ->
  resolvePath host path = Ok src ->
  outcome_of (loadModule host src nuxt) = Ok m ->
  sidecar_outcome host src = Ok found ->
  exists err,
    outcome_of (candidateLoop host (pre ++ path :: rest) vars nuxt)
    = Ok {| nuxtModule := m;
            buildTimeModuleMeta := default (buildTimeModuleMeta vars) found;
            error := err |}.
Proof.
  intros Hpre Hres Hload Hside. revert vars.
  induction Hpre as [|p pre (src' & e & Hres' & Hload') _ IH]; intros vars.
  - eexists. by apply (candidateLoop_success host path rest vars nuxt src).
  - destruct (candidateLoop_load_fails host p (pre ++ path :: rest) vars nuxt
                src' e Hres' Hload') as [tr Hstep].
    destruct (IH {| nuxtModule := nuxtModule vars;
                    buildTimeModuleMeta := buildTimeModuleMeta vars;
                    error := Some e |}) as [err Herr].
    exists err.
    change ((p :: pre) ++ path :: rest) with (p :: (pre ++ path :: rest)).
    by rewrite Hstep, outcome_of_after.
Qed.

Lemma loadNuxtModuleInstance_string_outcome (host : Host) (specifier : string)
    (nuxt : Nuxt) (vars : LoopVars) :
  outcome_of (candidateLoop host (candidatePaths host specifier)
                (initial_vars specifier) nuxt) = Ok vars ->
  outcome_of (loadNuxtModuleInstance host (AVal (VStr specifier)) nuxt)
  = match nuxtModule vars with
    | AFun f => Ok (f, buildTimeModuleMeta vars)
    | AVal v =>
        match error vars with
        | Some err =>
            if truthy v
            then Throw (TypeError ("Nuxt module should be a function: "
                                   +:+ toString v))
            else Throw err
        | None =>
            Throw (TypeError ("Nuxt module should be a function: "
                              +:+ toString v))
        end
    end.
Proof.
  intros Hloop. rewrite loadNuxtModuleInstance_string.
  destruct (candidateLoop host _ _ nuxt) as [[tr nuxt'] r].
  unfold outcome_of in *. simpl in *. subst r.
  destruct (nuxtModule vars) as [f|v], (error vars) as [err|]; simpl; try done.
  by destruct (truthy v).
Qed.

(** The first candidate that loads decides the result: when the candidates
    before it resolve and fail to load, and it yields a function next to a
    sidecar step that does not throw, that function is returned with the
    sidecar metadata (empty without a [module.json]); the errors retained from
    the earlier candidates are dropped. *)
Theorem first_loadable_candidate_wins (host : Host) (specifier : string)
    (nuxt : Nuxt) (pre : list string) (path : string) (rest : list string)
    (src : string) (f : NuxtModule) (found : option Meta) :
  candidatePaths host specifier = pre ++ path :: rest ->
  Forall (fun p => exists src' e,
              resolvePath host p = Ok src'
              /\ outcome_of (loadModule host src' nuxt) = Throw e) pre ->
  resolvePath host path = Ok src ->
  outcome_of (loadModule host src nuxt) = Ok (AFun f) ->
  sidecar_outcome host src = Ok found ->
  outcome_of (loadNuxtModuleInstance host (AVal (VStr specifier)) nuxt)
  = Ok (f, default ∅ found).
Proof.
  intros Hpaths Hpre Hres Hload Hside.
  destruct (candidateLoop_first_success host pre path rest
              (initial_vars specifier) nuxt src (AFun f) found
              Hpre Hres Hload Hside) as [err Hloop].
  rewrite <- Hpaths in Hloop.
  by rewrite (loadNuxtModuleInstance_string_outcome _ _ _ _ Hloop).
Qed.


(** Where the values of the loop variables come from: unless they are the
    ones the loop started with, [nuxtModule] is what one of the candidates
    loaded, and [buildTimeModuleMeta] is either untouched or the parsed
    [module.json] of that same candidate. *)
Lemma candidateLoop_origin (host : Host) (paths : list string) (vars : LoopVars)
    (nuxt : Nuxt) (vars' : LoopVars) :
  outcome_of (candidateLoop host paths vars nuxt) = Ok vars' ->
  (nuxtModule vars' = nuxtModule vars
   /\ buildTimeModuleMeta vars' = buildTimeModuleMeta vars)
  \/ exists path src,
       path ∈ paths
       /\ resolvePath host path = Ok src
       /\ outcome_of (loadModule host src nuxt) = Ok (nuxtModule vars')
       /\ (buildTimeModuleMeta vars' = buildTimeModuleMeta vars
           \/ sidecar_outcome host src = Ok (Some (buildTimeModuleMeta vars'))).
Proof.
  revert vars. induction paths as [|path rest IH]; intros vars.
  - intros [= <-]. by left.
  - rewrite candidateLoop_cons.
    destruct (resolvePath host path) as [src|e] eqn:Hres; [|discriminate].
    rewrite tryCandidate_run.
    destruct (outcome_of (loadModule host src nuxt)) as [m|e] eqn:Hout.
    + destruct (loadModule_outcome host src nuxt _ Hout) as (tr & Hload & _).
      rewrite Hload. cbn zeta.
      assert (forall e tr',
                 outcome_of (after tr'
                   (candidateLoop host rest
                      {| nuxtModule := m;
                         buildTimeModuleMeta := buildTimeModuleMeta vars;
                         error := Some e |} nuxt)) = Ok vars' ->
                 exists path0 src0,
                   path0 ∈ path :: rest
                   /\ resolvePath host path0 = Ok src0
                   /\ outcome_of (loadModule host src0 nuxt) = Ok (nuxtModule vars')
                   /\ (buildTimeModuleMeta vars' = buildTimeModuleMeta vars
                       \/ sidecar_outcome host src0
                          = Ok (Some (buildTimeModuleMeta vars')))) as Hcont.
      { intros e tr'. rewrite outcome_of_after.
        intros [[Hm Hmeta]|(p & s & Hp & Hr & Hl & Hs)]%IH; simpl in *.
        - exists path, src. rewrite Hm. repeat split; try done; [left|by left].
        - exists p, s. repeat split; try done. by right. }
      unfold sidecar_outcome in *.
      destruct (existsSync host (join host (dirname host src) "module.json"))
        eqn:Hex.
      * destruct (readFile host _) as [text|e] eqn:Hread;
          [|intros H; right; by eapply Hcont].
        destruct (JSON_parse host text) as [json|e] eqn:Hparse;
          [|intros H; right; by eapply Hcont].
        intros [= <-]. right. exists path, src. simpl.
        repeat split; try done; [left|].
        right. unfold sidecar_outcome. by rewrite Hex, Hread, Hparse.
      * intros [= <-]. right. exists path, src. simpl.
        repeat split; try done; [left|by left].
    + destruct (loadModule_outcome host src nuxt _ Hout) as (tr & Hload & _).
      rewrite Hload. cbn beta iota zeta.
      change (EvResolvePath path :: tr) with ([EvResolvePath path] ++ tr).
      rewrite outcome_of_after.
      intros [[Hm Hmeta]|(p & s & Hp & Hr & Hl & Hs)]%IH; simpl in *.
      * by left.
      * right. exists p, s. repeat split; try done. by right.
Qed.

(** A callable returned for a string specifier is what one of the three
    candidates loaded, and the build-time metadata returned with it is either
    empty or the parsed [module.json] found next to that same candidate. *)
Theorem loaded_module_comes_from_candidate (host : Host) (specifier : string)
    (nuxt : Nuxt) (f : NuxtModule) (build : Meta) :
  outcome_of (loadNuxtModuleInstance host (AVal (VStr specifier)) nuxt)
  = Ok (f, build) ->
  exists path src,
    path ∈ candidatePaths host specifier
    /\ resolvePath host path = Ok src
    /\ outcome_of (loadModule host src nuxt) = Ok (AFun f)
    /\ (build = ∅ \/ sidecar_outcome host src = Ok (Some build)).
Proof.
  intros Hout.
  destruct (outcome_of (candidateLoop host (candidatePaths host specifier)
                          (initial_vars specifier) nuxt)) as [vars|e] eqn:Hloop.
  - rewrite (loadNuxtModuleInstance_string_outcome _ _ _ _ Hloop) in Hout.
    destruct (candidateLoop_origin _ _ _ _ _ Hloop)
      as [[Hm _]|(path & src & Hp & Hr & Hl & Hs)].
    + rewrite Hm in Hout. unfold initial_vars in Hout. simpl in Hout.
      destruct (error vars); [destruct (negb (String.eqb specifier ""))|];
        discriminate.
    + destruct (nuxtModule vars) as [g|v] eqn:Hg.
      * injection Hout as <- <-. by exists path, src.
      * destruct (error vars); [destruct (truthy v)|]; discriminate.
  - rewrite loadNuxtModuleInstance_string in Hout.
    destruct (candidateLoop host _ _ nuxt) as [[tr nuxt'] r].
    unfold outcome_of in *. simpl in *. by subst r.
Qed.

(** *** Logging *)




(** *** Normalizing twice, installing twice *)

(** When [getDirectory] leaves the result of
    [normalizeModuleTranspilePath] as it is (it is not the absolute path of a
    regular file), normalizing that result again returns it unchanged. *)
Theorem normalizeModuleTranspilePath_idempotent (host : Host) (p r : string)
    (nuxt : Nuxt) :
  outcome_of (normalizeModuleTranspilePath host p nuxt) = Ok r ->
  outcome_of (getDirectory host r nuxt) = Ok r ->
  outcome_of (normalizeModuleTranspilePath host r nuxt) = Ok r.
Proof.
  intros Hnorm Hdir.
  destruct (normalizeModuleTranspilePath_run host p nuxt) as (tr & d & _ & Hrun).
  rewrite Hrun in Hnorm. unfold outcome_of in Hnorm. simpl in Hnorm.
  destruct (StrFacts.pop_split "n" "ode_modules/" d) as (r' & Hpop & Hno & _).
  rewrite Hpop in Hnorm. simpl in Hnorm. injection Hnorm as ->.
  rewrite (normalizeModuleTranspilePath_of_directory _ _ _ _ Hdir).
  destruct (StrFacts.pop_split "n" "ode_modules/" r) as (r'' & Hpop' & _ & Hsame & _).
  rewrite Hpop'. simpl. by rewrite (Hsame Hno).
Qed.

(** Installs are not deduplicated: installing the same reference a second
    time, in the context the first install left, appends a second entry with
    the same metadata and entry path after the first one. *)
Theorem installModule_twice_appends_twice (host : Host) (reference : JsAny)
    (inlineOptions : JsVal) (nuxt : Nuxt) (tr1 tr2 : list Event)
    (f : NuxtModule) (build : Meta) (nuxt1 nuxt2 : Nuxt)
    (returned1 returned2 : JsVal) (own : option Meta) :
  let first := context_of (installModule host reference inlineOptions nuxt) in
  loadNuxtModuleInstance host reference nuxt = (tr1, nuxt, Ok (f, build)) ->
  run f (receiver host nuxt) inlineOptions nuxt = (nuxt1, Ok returned1) ->
  is_false (install_result returned1) = false ->
  loadNuxtModuleInstance host reference first = (tr2, first, Ok (f, build)) ->
  run f (receiver host first) inlineOptions first = (nuxt2, Ok returned2) ->
  is_false (install_result returned2) = false ->
  ledger nuxt2 = ledger first ->
  declared_meta f = Ok own ->
  ledger (context_of (installModule host reference inlineOptions first))
  = ledger nuxt1
    ++ [{| meta := defu own build;
           timings := get_prop (install_result returned1) "timings";
           entryPath := option_map (resolveAlias host) (specifier_of reference) |};
        {| meta := defu own build;
           timings := get_prop (install_result returned2) "timings";
           entryPath := option_map (resolveAlias host) (specifier_of reference) |}].
Proof.
  intros first Hload1 Hrun1 Hres1 Hload2 Hrun2 Hres2 Hkeep Hmeta.
  destruct (installModule_writes host _ _ _ _ _ _ _ _ _ Hload1 Hrun1 Hres1 Hmeta)
    as (tr1' & after1 & Hfirst & Hledger1 & _).
  destruct (installModule_writes host _ _ _ _ _ _ _ _ _ Hload2 Hrun2 Hres2 Hmeta)
    as (tr2' & after2 & -> & Hledger2 & _).
  unfold context_of at 1. simpl. rewrite Hledger2, Hkeep.
  subst first. rewrite Hfirst. unfold context_of. simpl.
  by rewrite Hledger1, <- app_assoc.
Qed.

(** *** Search paths handed to the loaders *)

(** Every [importModule] and [requireModule] call of a load is given the
    module search paths of the build context as they are at that time, so a
    directory added by an earlier install is used by a later load. *)
Theorem loaders_use_current_modulesDir (host : Host) (reference : JsAny)
    (nuxt : Nuxt) :
  Forall (fun ev =>
            match ev with
            | EvImportModule _ dirs | EvRequireModule _ dirs =>
                dirs = modulesDir nuxt
            | _ => True
            end)
         (trace_of (loadNuxtModuleInstance host reference nuxt)).
Proof.
  set (P := fun ev => match ev with
                      | EvImportModule _ dirs | EvRequireModule _ dirs =>
                          dirs = modulesDir nuxt
                      | _ => True
                      end).
  assert (forall paths vars,
             Forall P (trace_of (candidateLoop host paths vars nuxt))) as Hloop.
  { induction paths as [|path rest IH]; intros vars; [by constructor|].
    rewrite candidateLoop_cons.
    destruct (resolvePath host path) as [src|e];
      [|by repeat constructor].
    assert (exists tr vars' exit,
               tryCandidate host src vars nuxt = (tr, nuxt, Ok (vars', exit))
               /\ Forall P tr) as (tr & vars' & exit & -> & Htr).
    { rewrite tryCandidate_run, loadModule_run. cbn zeta.
      destruct (importModule host src (modulesDir nuxt)) as [v|e];
        [destruct (any_nullish v)|];
        try destruct (requireModule host src (modulesDir nuxt));
        try destruct (existsSync host _);
        try destruct (readFile host _) as [text|?];
        try destruct (JSON_parse host text);
        eexists _, _, _; (split; [reflexivity|]); by repeat constructor. }
    destruct exit; unfold trace_of, after in *; simpl.
    - by constructor.
    - constructor; [done|]. apply Forall_app. split; [done|apply IH]. }
  destruct reference as [f|v]; [by constructor|].
  destruct v as [| | | |specifier|]; try by constructor.
  rewrite loadNuxtModuleInstance_string.
  specialize (Hloop (candidatePaths host specifier) (initial_vars specifier)).
  destruct (candidateLoop host _ _ nuxt) as [[tr nuxt'] [vars|e]];
    unfold trace_of in *; simpl in *; [|done].
  destruct (error vars) as [err|]; simpl.
  - destruct (any_truthy (nuxtModule vars)); simpl.
    + by destruct (nuxtModule vars).
    + apply Forall_app. split; [done|by repeat constructor].
  - by destruct (nuxtModule vars).
Qed.

(** *** Guards on the loader's calls *)

(** What each call of a load is conditioned on: [requireModule] is called
    on a path only when the dynamic import of that path rejected or gave
    [null] or [undefined]; a file is read only when [existsSync] reported it;
    [JSON.parse] is given only the text read from such a file; and the loader
    never calls [lstatSync]. *)
Theorem loader_calls_are_guarded (host : Host) (reference : JsAny) (nuxt : Nuxt) :
  Forall (fun ev =>
            match ev with
            | EvRequireModule src dirs => modern_load_failed host src dirs
            | EvReadFile path => existsSync host path = true
            | EvJsonParse text =>
                exists path,
                  existsSync host path = true /\ readFile host path = Ok text
            | EvLstatSync _ => False
            | _ => True
            end)
         (trace_of (loadNuxtModuleInstance host reference nuxt)).
Proof.
  set (P := fun ev => match ev with
                      | EvRequireModule src dirs => modern_load_failed host src dirs
                      | EvReadFile path => existsSync host path = true
                      | EvJsonParse text =>
                          exists path,
                            existsSync host path = true
                            /\ readFile host path = Ok text
                      | EvLstatSync _ => False
                      | _ => True
                      end).
  assert (forall paths vars,
             Forall P (trace_of (candidateLoop host paths vars nuxt))) as Hloop.
  { induction paths as [|path rest IH]; intros vars; [by constructor|].
    rewrite candidateLoop_cons.
    destruct (resolvePath host path) as [src|e];
      [|by repeat constructor].
    assert (exists tr vars' exit,
               tryCandidate host src vars nuxt = (tr, nuxt, Ok (vars', exit))
               /\ Forall P tr) as (tr & vars' & exit & -> & Htr).
    { rewrite tryCandidate_run, loadModule_run. cbn zeta.
      destruct (importModule host src (modulesDir nuxt)) as [v|e] eqn:Himport;
        [destruct (any_nullish v) eqn:Hv|];
        try destruct (requireModule host src (modulesDir nuxt));
        try destruct (existsSync host _) eqn:Hex;
        try destruct (readFile host _) as [text|?] eqn:Hread;
        try destruct (JSON_parse host text);
        eexists _, _, _; (split; [reflexivity|]);
        repeat constructor; simpl;
        unfold modern_load_failed; rewrite ?Himport; eauto. }
    destruct exit; unfold trace_of, after in *; simpl.
    - by constructor.
    - constructor; [done|]. apply Forall_app. split; [done|apply IH]. }
  destruct reference as [f|v]; [by constructor|].
  destruct v as [| | | |specifier|]; try by constructor.
  rewrite loadNuxtModuleInstance_string.
  specialize (Hloop (candidatePaths host specifier) (initial_vars specifier)).
  destruct (candidateLoop host _ _ nuxt) as [[tr nuxt'] [vars|e]];
    unfold trace_of in *; simpl in *; [|done].
  destruct (error vars) as [err|]; simpl.
  - destruct (any_truthy (nuxtModule vars)); simpl.
    + by destruct (nuxtModule vars).
    + apply Forall_app. split; [done|by repeat constructor].
  - by destruct (nuxtModule vars).
Qed.

(** *** The further properties at concrete environments *)

Import Cases.

Lemma NODE_MODULES_RE_test_matches_witness :
  NODE_MODULES_RE_test "/proj/node_modules/theme" = true.
Proof.
  apply (proj2 (NODE_MODULES_RE_test_matches "/proj/node_modules/theme")).
  exists "/proj", "/"%char, "/"%char, "theme". repeat split; reflexivity.
Defined.

Lemma localLayerModuleDirs_spec_witness :
  "/proj/extensions" ∈ localLayerModuleDirs host_missing (_layers layered_nuxt).
Proof.
  apply (proj2 (localLayerModuleDirs_spec host_missing (_layers layered_nuxt)
                  "/proj/extensions")).
  exists {| cwd := "/proj";
            config_srcDir := None;
            config_dir_modules := Some "extensions" |}.
  split; [left|split; reflexivity].
Defined.

Lemma installModule_load_failure_witness :
  installModule host_missing (AVal (VStr "my-mod")) VUndefined empty_nuxt
  = (trace_of (loadNuxtModuleInstance host_missing (AVal (VStr "my-mod"))
                 empty_nuxt),
     empty_nuxt,
     Throw (TypeError "Nuxt module should be a function: my-mod")).
Proof.
  refine (installModule_load_failure host_missing (AVal (VStr "my-mod"))
            VUndefined empty_nuxt
            (TypeError "Nuxt module should be a function: my-mod") _).
  vm_compute; reflexivity.
Defined.

Lemma installModule_callable_throws_witness :
  installModule (host_plain setup_throwing) (AVal (VStr "my-mod")) VUndefined
    empty_nuxt
  = ([EvResolvePath "my-mod/nuxt";
      EvImportModule "my-mod/nuxt" []; EvRequireModule "my-mod/nuxt" [];
      EvResolvePath "my-mod/module";
      EvImportModule "my-mod/module" []; EvRequireModule "my-mod/module" [];
      EvExistsSync "my-mod/module.json"],
     empty_nuxt, Throw (Thrown "setup failed")).
Proof.
  refine (installModule_callable_throws (host_plain setup_throwing)
            (AVal (VStr "my-mod")) VUndefined empty_nuxt _ setup_throwing ∅
            empty_nuxt (Thrown "setup failed") _ _);
    vm_compute; reflexivity.
Defined.

Lemma installModule_only_appends_witness :
  let final := context_of (installModule (host_plain setup_ok)
                             (AVal (VStr "my-mod")) VUndefined project_nuxt) in
  (ledger project_nuxt `prefix_of` ledger final
   /\ length (ledger final) <= S (length (ledger project_nuxt)))
  /\ (build_transpile project_nuxt `prefix_of` build_transpile final
      /\ length (build_transpile final) <= S (length (build_transpile project_nuxt)))
  /\ (modulesDir project_nuxt `prefix_of` modulesDir final
      /\ length (modulesDir final) <= S (length (modulesDir project_nuxt)))
  /\ _layers final = _layers project_nuxt
  /\ moduleContainer final = moduleContainer project_nuxt.
Proof.
  refine (installModule_only_appends (host_plain setup_ok)
            (AVal (VStr "my-mod")) VUndefined project_nuxt
            [EvResolvePath "my-mod/nuxt";
             EvImportModule "my-mod/nuxt" ["/proj/node_modules"];
             EvRequireModule "my-mod/nuxt" ["/proj/node_modules"];
             EvResolvePath "my-mod/module";
             EvImportModule "my-mod/module" ["/proj/node_modules"];
             EvRequireModule "my-mod/module" ["/proj/node_modules"];
             EvExistsSync "my-mod/module.json"]
            setup_ok ∅ project_nuxt
            (Ok (VObj {[ "timings" := VObj {[ "setup" := VNum 5 ]} ]})) _ _);
    vm_compute; reflexivity.
Defined.

Lemma installModule_only_false_aborts_witness :
  exists entry,
    outcome_of (installModule host_missing (AFun setup_zero) VUndefined
                  empty_nuxt) = Ok tt
    /\ ledger (context_of (installModule host_missing (AFun setup_zero)
                             VUndefined empty_nuxt))
       = ledger empty_nuxt ++ [entry]
    /\ timings entry = VUndefined.
Proof.
  refine (installModule_only_false_aborts host_missing (AFun setup_zero)
            VUndefined empty_nuxt [] setup_zero ∅ empty_nuxt (VNum 0)
            _ _ _);
    try reflexivity.
  discriminate.
Defined.

Lemma installModule_entryPath_witness :
  exists entry,
    last (ledger (context_of (installModule (host_sidecar setup_ok)
                                (AVal (VStr "my-mod")) VUndefined empty_nuxt)))
    = Some entry
    /\ entryPath entry = Some (resolveAlias (host_sidecar setup_ok) "my-mod").
Proof.
  refine (installModule_entryPath (host_sidecar setup_ok)
            (AVal (VStr "my-mod")) VUndefined empty_nuxt
            [EvResolvePath "my-mod/nuxt";
             EvImportModule "my-mod/nuxt" []; EvRequireModule "my-mod/nuxt" [];
             EvResolvePath "my-mod/module";
             EvImportModule "my-mod/module" [];
             EvRequireModule "my-mod/module" [];
             EvExistsSync "my-mod/module.json";
             EvReadFile "my-mod/module.json";
             EvJsonParse "{ version }"]
            setup_ok {[ "version" := VStr "1.0" ]} empty_nuxt
            (VObj {[ "timings" := VObj {[ "setup" := VNum 5 ]} ]}) None
            _ _ _ _);
    vm_compute; reflexivity.
Defined.

Lemma installModule_getMeta_failure_witness :
  let final := context_of (installModule (host_plain setup_bad_meta)
                             (AVal (VStr "my-mod")) VUndefined empty_nuxt) in
  outcome_of (installModule (host_plain setup_bad_meta) (AVal (VStr "my-mod"))
                VUndefined empty_nuxt)
  = Throw (Thrown "getMeta failed")
  /\ _installedModules final = Some (ledger empty_nuxt)
  /\ build_transpile final = build_transpile empty_nuxt ++ ["my-mod"].
Proof.
  destruct (installModule_getMeta_failure (host_plain setup_bad_meta)
              (AVal (VStr "my-mod")) VUndefined empty_nuxt
              [EvResolvePath "my-mod/nuxt";
               EvImportModule "my-mod/nuxt" []; EvRequireModule "my-mod/nuxt" [];
               EvResolvePath "my-mod/module";
               EvImportModule "my-mod/module" [];
               EvRequireModule "my-mod/module" [];
               EvExistsSync "my-mod/module.json"]
              setup_bad_meta ∅ empty_nuxt VUndefined (Thrown "getMeta failed")
              ltac:(vm_compute; reflexivity) ltac:(vm_compute; reflexivity)
              ltac:(vm_compute; reflexivity) ltac:(vm_compute; reflexivity))
    as (Hout & Hdefined & Htranspile).
  split; [exact Hout|]. split; [exact Hdefined|].
  apply (Htranspile "my-mod" "my-mod" eq_refl).
  vm_compute; reflexivity.
Defined.

Lemma installModule_string_bookkeeping_witness :
  let out := installModule host_package
               (AVal (VStr "/proj/node_modules/foo/index.js")) VUndefined
               project_nuxt in
  outcome_of out = Ok tt
  /\ trace_of out
     = [EvResolvePath "/proj/node_modules/foo/index.js/nuxt";
        EvImportModule "/proj/node_modules/foo/index.js/nuxt" ["/proj/node_modules"];
        EvRequireModule "/proj/node_modules/foo/index.js/nuxt" ["/proj/node_modules"];
        EvResolvePath "/proj/node_modules/foo/index.js/module";
        EvImportModule "/proj/node_modules/foo/index.js/module" ["/proj/node_modules"];
        EvRequireModule "/proj/node_modules/foo/index.js/module" ["/proj/node_modules"];
        EvResolvePath "/proj/node_modules/foo/index.js";
        EvImportModule "/proj/node_modules/foo/index.js" ["/proj/node_modules"];
        EvExistsSync "/proj/node_modules/foo/module.json"]
       ++ (if isAbsolute host_package "/proj/node_modules/foo/index.js"
           then [EvLstatSync "/proj/node_modules/foo/index.js";
                 EvLstatSync "/proj/node_modules/foo/index.js"] else [])
  /\ build_transpile (context_of out) = build_transpile project_nuxt ++ ["foo"]
  /\ modulesDir (context_of out)
     = modulesDir project_nuxt
       ++ (if negb (String.eqb "/proj/node_modules/foo"
                      "/proj/node_modules/foo/index.js")
              && negb (bool_decide
                         ("/proj/node_modules/foo"
                            ∈ localLayerModuleDirs host_package
                                (_layers project_nuxt)))
           then ["/proj/node_modules/foo"] else []).
Proof.
  refine (installModule_string_bookkeeping host_package
            "/proj/node_modules/foo/index.js" VUndefined project_nuxt _
            setup_ok ∅ project_nuxt
            (VObj {[ "timings" := VObj {[ "setup" := VNum 5 ]} ]}) None
            "/proj/node_modules/foo" "foo" _ _ _ _ _ _);
    vm_compute; reflexivity.
Defined.


Lemma first_loadable_candidate_wins_witness :
  outcome_of (loadNuxtModuleInstance (host_sidecar setup_ok)
                (AVal (VStr "my-mod")) empty_nuxt)
  = Ok (setup_ok, default ∅ (Some {[ "version" := VStr "1.0" ]})).
Proof.
  refine (first_loadable_candidate_wins (host_sidecar setup_ok) "my-mod"
            empty_nuxt ["my-mod/nuxt"] "my-mod/module" ["my-mod"]
            "my-mod/module" setup_ok (Some {[ "version" := VStr "1.0" ]})
            _ _ _ _ _); try (vm_compute; reflexivity).
  constructor; [|constructor].
  exists "my-mod/nuxt", (Thrown "Cannot find module 'my-mod/nuxt'").
  split; vm_compute; reflexivity.
Defined.


Lemma loaded_module_comes_from_candidate_witness :
  exists path src,
    path ∈ candidatePaths (host_sidecar setup_ok) "my-mod"
    /\ resolvePath (host_sidecar setup_ok) path = Ok src
    /\ outcome_of (loadModule (host_sidecar setup_ok) src empty_nuxt)
       = Ok (AFun setup_ok)
    /\ (({[ "version" := VStr "1.0" ]} : Meta) = ∅
        \/ sidecar_outcome (host_sidecar setup_ok) src
           = Ok (Some {[ "version" := VStr "1.0" ]})).
Proof.
  refine (loaded_module_comes_from_candidate (host_sidecar setup_ok) "my-mod"
            empty_nuxt setup_ok {[ "version" := VStr "1.0" ]} _).
  vm_compute; reflexivity.
Defined.

Lemma normalizeModuleTranspilePath_idempotent_witness :
  outcome_of (normalizeModuleTranspilePath host_missing "foo/index.js"
                empty_nuxt)
  = Ok "foo/index.js".
Proof.
  refine (normalizeModuleTranspilePath_idempotent host_missing
            "/proj/node_modules/foo/index.js" "foo/index.js" empty_nuxt _ _);
    vm_compute; reflexivity.
Defined.

Lemma installModule_twice_appends_twice_witness :
  let first := context_of (installModule host_missing (AFun setup_declaring)
                             VUndefined empty_nuxt) in
  ledger (context_of (installModule host_missing (AFun setup_declaring)
                        VUndefined first))
  = ledger empty_nuxt
    ++ [{| meta := defu (Some {[ "b" := VNum 3 ]}) ∅;
           timings := get_prop (install_result VUndefined) "timings";
           entryPath := option_map (resolveAlias host_missing)
                          (specifier_of (AFun setup_declaring)) |};
        {| meta := defu (Some {[ "b" := VNum 3 ]}) ∅;
           timings := get_prop (install_result VUndefined) "timings";
           entryPath := option_map (resolveAlias host_missing)
                          (specifier_of (AFun setup_declaring)) |}].
Proof.
  refine (installModule_twice_appends_twice host_missing (AFun setup_declaring)
            VUndefined empty_nuxt [] [] setup_declaring ∅ empty_nuxt _
            VUndefined VUndefined (Some {[ "b" := VNum 3 ]})
            _ _ _ _ _ _ _ _);
    vm_compute; reflexivity.
Defined.
